(** * Asset definitions: key inference and key substitution

    A shallow embedding of
    [python_modules/dagster/dagster/core/asset_defs/decorators.py] and
    [python_modules/dagster/dagster/core/asset_defs/assets.py], followed by
    the properties of the node-definition builder that are established on it.

    Python values are modelled as follows.
    - [str] is [string]; a list is a [list].
    - A [dict] is an association list in insertion order whose keys are
      pairwise distinct ([dict_wf]); assignment to a present key keeps the
      key's position and replaces its value, assignment to an absent key
      appends.  A dict comprehension is a left-to-right sequence of
      assignments.
    - A [set] received as an argument is the list of its elements in the
      order in which Python iterates it; a set built by the code is iterated
      in an order that Python leaves unspecified, which [set_iter] names.
    - An exception is the [Raise] case of [Result]. *)

From Stdlib Require Import String Ascii List Bool Arith Lia Permutation.
Import ListNotations.
Local Open Scope string_scope.
Local Open Scope list_scope.

Set Implicit Arguments.

(** ** Decidable equality on keys *)

Class EqDec (A : Type) := eq_dec : forall x y : A, {x = y} + {x <> y}.

#[export] Instance string_EqDec : EqDec string := string_dec.

#[export] Instance list_EqDec {A} `{EqDec A} : EqDec (list A) := list_eq_dec eq_dec.

Definition eqb_of {A} `{EqDec A} (x y : A) : bool :=
  if eq_dec x y then true else false.

(** [x in xs] on a list (or on the keys view of a dict). *)
Definition py_in {A} `{EqDec A} (x : A) (xs : list A) : bool :=
  existsb (eqb_of x) xs.

(** ** Exceptions *)

Inductive Exception : Type :=
| DagsterInvalidDefinitionError (msg : string)
| CheckError (msg : string)
| KeyError (key : string)
| StopIteration.

Inductive Result (A : Type) : Type :=
| Ok (a : A)
| Raise (e : Exception).

Arguments Ok {A} a.
Arguments Raise {A} e.

Definition bind {A B} (r : Result A) (k : A -> Result B) : Result B :=
  match r with
  | Ok a => k a
  | Raise e => Raise e
  end.

Notation "x <- r ;; k" := (bind r (fun x => k))
  (at level 61, r at next level, right associativity).

(** A [for] loop whose body may raise: the first exception ends the loop. *)
Fixpoint for_each {A} (xs : list A) (body : A -> Result unit) : Result unit :=
  match xs with
  | [] => Ok tt
  | x :: rest => _ <- body x ;; for_each rest body
  end.

(** ** Python dicts *)

Section Dict.
Context {K V : Type} `{EqDec K}.

Definition dict : Type := list (K * V).

Definition dict_keys (d : dict) : list K := map fst d.

Definition dict_values (d : dict) : list V := map snd d.

Definition dict_items (d : dict) : list (K * V) := d.

Definition dict_wf (d : dict) : Prop := NoDup (dict_keys d).

(** [d.get(k)] with no default. *)
Fixpoint dict_get (d : dict) (k : K) : option V :=
  match d with
  | [] => None
  | (k', v) :: rest => if eq_dec k k' then Some v else dict_get rest k
  end.

(** [d.get(k, default)]. *)
Definition dict_get_default (d : dict) (k : K) (default : V) : V :=
  match dict_get d k with
  | Some v => v
  | None => default
  end.

(** [k in d]. *)
Definition dict_contains (d : dict) (k : K) : bool :=
  py_in k (dict_keys d).

(** [d[k] = v]. *)
Fixpoint dict_set (d : dict) (k : K) (v : V) : dict :=
  match d with
  | [] => [(k, v)]
  | (k', v') :: rest =>
      if eq_dec k k' then (k', v) :: rest else (k', v') :: dict_set rest k v
  end.

(** [dict(items)] and [{k: v for ...}]: assignments from left to right. *)
Definition dict_of_items (items : list (K * V)) : dict :=
  fold_left (fun d kv => dict_set d (fst kv) (snd kv)) items [].

(** [len(d)]. *)
Definition dict_len (d : dict) : nat := List.length d.
End Dict.

Arguments dict K V : clear implicits.

(** ** Data of the surrounding framework

    The declarations below are used by the two modules but declared
    elsewhere in the framework ([events.py], [input.py], [output.py],
    [asset_in.py], [decorator_utils.py], [check]); only the fields that the
    two modules read or write are kept. *)

(** [AssetKey]: a hierarchical key, equal to another when the paths are. *)
Record AssetKey : Type := mk_AssetKey { path : list string }.

#[export] Instance AssetKey_EqDec : EqDec AssetKey.
Proof.
  intros [p] [q]. destruct (eq_dec p q) as [e | n].
  - left. now rewrite e.
  - right. intros e. apply n. now inversion e.
Defined.

(** Metadata: a mapping from names to values that this code never inspects. *)
Definition Metadata : Type := dict string string.

(** The [dagster_type] argument of [In]: left unset, [Nothing] (the port
    receives no value at run time), or some other type. *)
Inductive DagsterTypeArg : Type :=
| NoValueSentinel
| Nothing
| NamedType (type_name : string).

(** [In(dagster_type, metadata, root_manager_key, asset_key)]. *)
Record In_ : Type := mk_In {
  in_dagster_type : DagsterTypeArg;
  in_metadata : option Metadata;
  in_root_manager_key : option string;
  in_asset_key : option AssetKey
}.

(** [Out(dagster_type, io_manager_key, metadata, asset_key)]; [multi_asset]
    rejects an [asset_key] that is a function, so it is a constant or unset. *)
Record Out : Type := mk_Out {
  out_dagster_type : DagsterTypeArg;
  out_io_manager_key : option string;
  out_metadata : option Metadata;
  out_asset_key : option AssetKey
}.

(** [AssetIn(asset_key, metadata, namespace)]. *)
Record AssetIn : Type := mk_AssetIn {
  ai_asset_key : option AssetKey;
  ai_metadata : option Metadata;
  ai_namespace : option (list string)
}.

(** A parameter of a Python function, as the signature lists it. *)
Record FnParameter : Type := mk_FnParameter { param_name : string }.

(** A Python function: its [__name__] and its signature. *)
Record PyFunction : Type := mk_PyFunction {
  fn_name : string;
  fn_parameters : list FnParameter
}.

Definition get_function_params (fn : PyFunction) : list FnParameter :=
  fn_parameters fn.

(** Modelled from the spec: the wrapped computation ([OpDefinition], declared
    outside these two modules) exposes an ordered list of declared input
    ports with their descriptors, an ordered list of declared output ports,
    and the function it wraps; [input_dict], [output_dict], [ins] and [outs]
    index those ports by name. *)
Record InputDefinition : Type := mk_InputDefinition {
  input_def_name : string;
  input_def_in : In_
}.

Record OutputDefinition : Type := mk_OutputDefinition {
  output_def_name : string;
  output_def_out : Out
}.

Record OpDefinition : Type := mk_OpDefinition {
  op_name : string;
  decorated_fn : PyFunction;
  input_defs : list InputDefinition;
  output_defs : list OutputDefinition
}.

Definition input_dict (op : OpDefinition) : dict string InputDefinition :=
  dict_of_items (map (fun d => (input_def_name d, d)) (input_defs op)).

Definition output_dict (op : OpDefinition) : dict string OutputDefinition :=
  dict_of_items (map (fun d => (output_def_name d, d)) (output_defs op)).

Definition op_ins (op : OpDefinition) : dict string In_ :=
  dict_of_items (map (fun d => (input_def_name d, input_def_in d)) (input_defs op)).

Definition op_outs (op : OpDefinition) : dict string Out :=
  dict_of_items (map (fun d => (output_def_name d, output_def_out d)) (output_defs op)).

(** [check.invariant(condition, desc)], [check.failed(desc)] and
    [check.opt_set_param(obj, ...)]: the exception carries the description
    it was given. *)
Definition check_invariant (condition : bool) (desc : string) : Result unit :=
  if condition then Ok tt else Raise (CheckError desc).

Definition check_failed {A} (desc : string) : Result A :=
  Raise (CheckError desc).

Definition opt_set_param {A} (obj : option (list A)) : list A :=
  match obj with
  | Some s => s
  | None => []
  end.

(** [d[k]] on a dict with string keys. *)
Definition dict_subscript {V} (d : dict string V) (k : string) : Result V :=
  match dict_get d k with
  | Some v => Ok v
  | None => Raise (KeyError k)
  end.

(** [{key(x): value(x) for x in xs}] where computing an entry may raise. *)
Fixpoint dict_comprehension {A K V} `{EqDec K}
    (entry : A -> Result (K * V)) (xs : list A) (acc : dict K V)
    : Result (dict K V) :=
  match xs with
  | [] => Ok acc
  | x :: rest =>
      kv <- entry x ;;
      dict_comprehension entry rest (dict_set acc (fst kv) (snd kv))
  end.

(** [a or b] on an optional sequence: [None] and the empty sequence are
    falsy. *)
Definition seq_or {A} (a : option (list A)) (b : list A) : list A :=
  match a with
  | Some (x :: l) => x :: l
  | _ => b
  end.

(** [filter(None, segments)]: the empty string is falsy. *)
Definition filter_none (segments : list string) : list string :=
  filter (fun s => negb (eqb_of s "")) segments.

(** What the two modules take from their collaborators and from the Python
    runtime. *)
Class Collaborators : Type := {
  (** [decorator_utils.get_valid_name_permutations]: the allow-list of
      spellings of a conventional parameter name. *)
  get_valid_name_permutations : string -> list string;
  (** The order in which Python iterates the set built from these
      elements. *)
  set_iter : list string -> list string;
  PartitionsDefinition : Type;
  PartitionMapping : Type;
  (** [PartitionsDefinition.get_default_partition_mapping]. *)
  get_default_partition_mapping : PartitionsDefinition -> PartitionMapping;
  (** [AssetKey.to_string]. *)
  to_string : AssetKey -> string;
  (** [OpDefinition.with_replaced_asset_keys(output_asset_key_replacements,
      input_asset_key_replacements)]: the computation's own substituted
      copy. *)
  op_with_replaced_asset_keys :
    OpDefinition -> dict AssetKey AssetKey -> dict AssetKey AssetKey ->
    OpDefinition
}.

(** ** decorators.py *)

Section Decorators.
Context `{Collaborators}.

Definition _get_input_param_names (fn_params : list FnParameter) : list string :=
  let is_context_provided :=
    match fn_params with
    | [] => false
    | first :: _ => py_in (param_name first) (get_valid_name_permutations "context")
    end in
  map param_name (if is_context_provided then tl fn_params else fn_params).

Definition _infer_asset_key_by_input_name
    (op_def : OpDefinition) (asset_key_by_input_name : dict string AssetKey)
    : Result (dict string AssetKey) :=
  let params := get_function_params (decorated_fn op_def) in
  let input_param_names := _get_input_param_names params in
  _ <- for_each (dict_keys asset_key_by_input_name) (fun in_key =>
         if negb (py_in in_key input_param_names)
         then Raise (DagsterInvalidDefinitionError
                ("Key '" ++ in_key ++ "' in provided asset_key_by_input_name dict does not correspond to "
                 ++ "any key provided in the ins dictionary of the decorated op or any argument "
                 ++ "to the decorated function"))
         else Ok tt) ;;
  let all_input_names := set_iter (input_param_names ++ dict_keys (op_ins op_def)) in
  Ok (dict_of_items
        (map (fun input_name =>
                (input_name,
                 dict_get_default asset_key_by_input_name input_name
                   (mk_AssetKey [input_name])))
             all_input_names)).

Definition _infer_asset_key_by_output_name
    (op_def : OpDefinition) (asset_key_by_output_name : dict string AssetKey)
    : Result (dict string AssetKey) :=
  let inferred_asset_key_by_output_name := asset_key_by_output_name in
  let op_outs := op_outs op_def in
  _ <- for_each (dict_items asset_key_by_output_name) (fun item =>
         let output_name := fst item in
         if negb (dict_contains op_outs output_name)
         then Raise (DagsterInvalidDefinitionError
                ("Key " ++ output_name ++ " in provided asset_key_by_output_name does not correspond "
                 ++ "to any key provided in the out dictionary of the decorated op"))
         else Ok tt) ;;
  Ok (fold_left
        (fun inferred key =>
           if negb (dict_contains inferred key)
           then dict_set inferred key (mk_AssetKey [key])
           else inferred)
        (dict_keys op_outs) inferred_asset_key_by_output_name).

Definition build_asset_outs
    (op_name : string) (outs : dict string Out)
    (asset_ins : dict AssetKey (string * In_))
    (out_name_to_asset_key : option (dict string AssetKey))
    : dict AssetKey (string * option Out) :=
  let asset_keys_by_out_name : dict string AssetKey :=
    dict_of_items
      (map (fun item =>
              (fst item,
               match out_asset_key (snd item) with
               | Some k => k
               | None => mk_AssetKey [fst item]
               end))
           (dict_items outs)) in
  let out_name_to_asset_key : dict string AssetKey :=
    match out_name_to_asset_key with
    | Some (entry :: more) => entry :: more
    | _ => dict_of_items
             (map (fun out_name => (out_name, mk_AssetKey [out_name]))
                  (dict_keys outs))
    end in
  dict_of_items
    (map (fun item => (snd item, (fst item, dict_get outs (fst item))))
         (dict_items out_name_to_asset_key)).

(** The key and the metadata that the first loop of [build_asset_ins]
    computes for one input name. *)
Definition input_asset_key
    (asset_namespace : option (list string)) (asset_ins : dict string AssetIn)
    (input_name : string) : AssetKey :=
  let asset_key := match dict_get asset_ins input_name with
                   | Some asset_in => ai_asset_key asset_in
                   | None => None
                   end in
  let namespace := match dict_get asset_ins input_name with
                   | Some asset_in => ai_namespace asset_in
                   | None => None
                   end in
  match asset_key with
  | Some k => k
  | None =>
      mk_AssetKey
        (filter_none (seq_or namespace (seq_or asset_namespace []) ++ [input_name]))
  end.

Definition input_metadata
    (asset_ins : dict string AssetIn) (input_name : string) : Metadata :=
  match dict_get asset_ins input_name with
  | Some asset_in => seq_or (ai_metadata asset_in) []
  | None => []
  end.

(** The entry that the first loop assigns for an input name:
    [(input_name, In(metadata=metadata, root_manager_key="root_manager"))]. *)
Definition parameter_entry
    (asset_ins : dict string AssetIn) (input_name : string) : string * In_ :=
  (input_name,
   mk_In NoValueSentinel (Some (input_metadata asset_ins input_name))
     (Some "root_manager") None).

(** The entry that the second loop assigns for a dependency-only key:
    [(in_name, In(dagster_type=Nothing, asset_key=asset_key))]. *)
Definition dependency_entry (asset_key : AssetKey) : string * In_ :=
  let in_name := String.concat "_" (path asset_key) in
  (in_name, mk_In Nothing None None (Some asset_key)).

(** The two loops that fill [ins]. *)
Definition ins_of_input_names
    (asset_namespace : option (list string)) (asset_ins : dict string AssetIn)
    (all_input_names : list string) : dict AssetKey (string * In_) :=
  fold_left
    (fun ins input_name =>
       dict_set ins (input_asset_key asset_namespace asset_ins input_name)
         (parameter_entry asset_ins input_name))
    all_input_names [].

Definition ins_add_non_argument_deps
    (non_argument_deps : list AssetKey) (ins : dict AssetKey (string * In_))
    : dict AssetKey (string * In_) :=
  fold_left
    (fun ins asset_key => dict_set ins asset_key (dependency_entry asset_key))
    non_argument_deps ins.

Definition build_asset_ins
    (fn : PyFunction) (asset_namespace : option (list string))
    (asset_ins : dict string AssetIn)
    (non_argument_deps : option (list AssetKey))
    : Result (dict AssetKey (string * In_)) :=
  let non_argument_deps := opt_set_param non_argument_deps in
  let params := get_function_params fn in
  let input_param_names := _get_input_param_names params in
  let all_input_names := set_iter (input_param_names ++ dict_keys asset_ins) in
  _ <- for_each (dict_keys asset_ins) (fun in_key =>
         if negb (py_in in_key input_param_names)
         then Raise (DagsterInvalidDefinitionError
                ("Key '" ++ in_key ++ "' in provided ins dict does not correspond to any of the names "
                 ++ "of the arguments to the decorated function"))
         else Ok tt) ;;
  let ins := ins_of_input_names asset_namespace asset_ins all_input_names in
  let ins := ins_add_non_argument_deps non_argument_deps ins in
  Ok ins.
End Decorators.

(** ** assets.py *)

Section Assets.
Context `{Collaborators}.

(** The state of an [AssetsDefinition] instance. *)
Record AssetsDefinition : Type := mk_AssetsDefinition {
  _op : OpDefinition;
  _input_defs_by_asset_key : dict AssetKey InputDefinition;
  _output_defs_by_asset_key : dict AssetKey OutputDefinition;
  _partitions_def : option PartitionsDefinition;
  _partition_mappings : dict AssetKey PartitionMapping
}.

(** [AssetsDefinition.__init__]. *)
Definition AssetsDefinition_init
    (input_names_by_asset_key : dict AssetKey string)
    (output_names_by_asset_key : dict AssetKey string)
    (op : OpDefinition)
    (partitions_def : option PartitionsDefinition)
    (partition_mappings : option (dict AssetKey PartitionMapping))
    : Result AssetsDefinition :=
  input_defs_by_asset_key <-
    dict_comprehension
      (fun item => d <- dict_subscript (input_dict op) (snd item) ;; Ok (fst item, d))
      (dict_items input_names_by_asset_key) [] ;;
  output_defs_by_asset_key <-
    dict_comprehension
      (fun item => d <- dict_subscript (output_dict op) (snd item) ;; Ok (fst item, d))
      (dict_items output_names_by_asset_key) [] ;;
  Ok (mk_AssetsDefinition op input_defs_by_asset_key output_defs_by_asset_key
        partitions_def (seq_or partition_mappings [])).

Definition op (self : AssetsDefinition) : OpDefinition := _op self.

Definition asset_key (self : AssetsDefinition) : Result AssetKey :=
  _ <- check_invariant
         (Nat.eqb (dict_len (_output_defs_by_asset_key self)) 1)
         ("Tried to retrieve asset key from an assets definition with multiple asset keys: "
          ++ String.concat ", "
               (map to_string (dict_keys (_output_defs_by_asset_key self)))) ;;
  match dict_keys (_output_defs_by_asset_key self) with
  | k :: _ => Ok k
  | [] => Raise StopIteration
  end.

Definition asset_keys (self : AssetsDefinition) : list AssetKey :=
  dict_keys (_output_defs_by_asset_key self).

Definition output_defs_by_asset_key (self : AssetsDefinition) :=
  _output_defs_by_asset_key self.

Definition input_defs_by_asset_key (self : AssetsDefinition) :=
  _input_defs_by_asset_key self.

Definition partitions_def (self : AssetsDefinition) : option PartitionsDefinition :=
  _partitions_def self.

Definition dependency_asset_keys (self : AssetsDefinition) : list AssetKey :=
  dict_keys (_input_defs_by_asset_key self).

Definition get_partition_mapping
    (self : AssetsDefinition) (in_asset_key : AssetKey) : Result PartitionMapping :=
  match _partitions_def self with
  | None => check_failed "Asset is not partitioned"
  | Some partitions_def =>
      Ok (dict_get_default (_partition_mappings self) in_asset_key
            (get_default_partition_mapping partitions_def))
  end.

Definition with_replaced_asset_keys
    (self : AssetsDefinition)
    (output_asset_key_replacements : dict AssetKey AssetKey)
    (input_asset_key_replacements : dict AssetKey AssetKey)
    : Result AssetsDefinition :=
  AssetsDefinition_init
    (dict_of_items
       (map (fun item =>
               (dict_get_default input_asset_key_replacements (fst item) (fst item),
                input_def_name (snd item)))
            (dict_items (input_defs_by_asset_key self))))
    (dict_of_items
       (map (fun item =>
               (dict_get_default output_asset_key_replacements (fst item) (fst item),
                output_def_name (snd item)))
            (dict_items (output_defs_by_asset_key self))))
    (op_with_replaced_asset_keys (op self)
       output_asset_key_replacements input_asset_key_replacements)
    (partitions_def self)
    (Some (_partition_mappings self)).
End Assets.

(** ** decorators.py: the arguments that the decorators derive from the
    inferred inputs

    [_Asset.__call__] and the [inner] function of [multi_asset] hand the
    result [asset_ins] of [build_asset_ins] on to the op decorator and to
    [AssetsDefinition] through the three expressions below; the op
    decorator itself is declared elsewhere in the framework. *)

(** [dict(asset_ins.values())]: the [ins] argument of the op decorator. *)
Definition op_ins_of_asset_ins (asset_ins : dict AssetKey (string * In_))
    : dict string In_ :=
  dict_of_items (dict_values asset_ins).

(** [{input_name: asset_key for asset_key, (input_name, _) in asset_ins.items()}]. *)
Definition asset_key_by_input_name_of_asset_ins
    (asset_ins : dict AssetKey (string * In_)) : dict string AssetKey :=
  dict_of_items (map (fun item => (fst (snd item), fst item)) (dict_items asset_ins)).

Section AssetDecorator.
Context `{Collaborators}.

(** [{asset_key: self.partition_mappings[input_name]
      for asset_key, (input_name, _) in asset_ins.items()
      if input_name in self.partition_mappings}
     if self.partition_mappings else None]. *)
Definition asset_partition_mappings
    (partition_mappings : option (dict string PartitionMapping))
    (asset_ins : dict AssetKey (string * In_))
    : Result (option (dict AssetKey PartitionMapping)) :=
  match partition_mappings with
  | Some (entry :: more) =>
      let partition_mappings := entry :: more in
      mappings <-
        dict_comprehension
          (fun item =>
             mapping <- dict_subscript partition_mappings (fst (snd item)) ;;
             Ok (fst item, mapping))
          (filter (fun item => dict_contains partition_mappings (fst (snd item)))
                  (dict_items asset_ins))
          [] ;;
      Ok (Some mappings)
  | _ => Ok None
  end.
End AssetDecorator.

(** ** Assumptions on the collaborators *)

Section Laws.
Context `{Collaborators}.

(** The conventional name [context] is on its own allow-list. *)
Definition context_is_recognized : Prop :=
  py_in "context" (get_valid_name_permutations "context") = true.

(** A set holds each element once, in some order. *)
Definition set_iter_is_set : Prop :=
  forall l : list string, Permutation (set_iter l) (nodup string_dec l).

(** The computation's substituted copy declares the ports of the
    original. *)
Definition op_substitution_keeps_ports : Prop :=
  forall op o i,
    incl (map input_def_name (input_defs op))
         (map input_def_name (input_defs (op_with_replaced_asset_keys op o i)))
    /\ incl (map output_def_name (output_defs op))
            (map output_def_name (output_defs (op_with_replaced_asset_keys op o i))).

(** Substituting nothing leaves the computation as it is. *)
Definition op_substitution_empty_is_identity : Prop :=
  forall op, op_with_replaced_asset_keys op [] [] = op.

(** An [AssetsDefinition] is one that [__init__] returned. *)
Definition constructed (d : AssetsDefinition) : Prop :=
  exists ins outs op pd pm, AssetsDefinition_init ins outs op pd pm = Ok d.

(** [replacements.get(key, key)]. *)
Definition substituted (replacements : dict AssetKey AssetKey) (key : AssetKey)
    : AssetKey :=
  dict_get_default replacements key key.

(** The invariant that the keys of [partition_mappings] are input keys. *)
Definition partition_mappings_within_inputs (d : AssetsDefinition) : Prop :=
  incl (dict_keys (_partition_mappings d)) (dependency_asset_keys d).
End Laws.

(** ** A reference instance of the collaborators

    Modelled from the spec: the allow-list of conventional spellings of a
    context parameter, a set iterated in the order of last insertion, named
    partitioning schemes and mappings, a delimiter-joined string form of a
    key, and a computation whose substituted copy renames the key literals
    carried by its port descriptors. *)

Definition replace_in_key (replacements : dict AssetKey AssetKey)
    (d : InputDefinition) : InputDefinition :=
  let i := input_def_in d in
  mk_InputDefinition (input_def_name d)
    (mk_In (in_dagster_type i) (in_metadata i) (in_root_manager_key i)
       (option_map (fun k => dict_get_default replacements k k) (in_asset_key i))).

Definition replace_out_key (replacements : dict AssetKey AssetKey)
    (d : OutputDefinition) : OutputDefinition :=
  let o := output_def_out d in
  mk_OutputDefinition (output_def_name d)
    (mk_Out (out_dagster_type o) (out_io_manager_key o) (out_metadata o)
       (option_map (fun k => dict_get_default replacements k k) (out_asset_key o))).

#[export] Instance reference_collaborators : Collaborators := {|
  get_valid_name_permutations := fun param_name =>
    ["_"; param_name; ("_" ++ param_name)%string; (param_name ++ "_")%string];
  set_iter := nodup string_dec;
  PartitionsDefinition := string;
  PartitionMapping := string;
  get_default_partition_mapping := fun scheme => ("default of " ++ scheme)%string;
  to_string := fun k => String.concat "/" (path k);
  op_with_replaced_asset_keys := fun op output_replacements input_replacements =>
    mk_OpDefinition (op_name op) (decorated_fn op)
      (map (replace_in_key input_replacements) (input_defs op))
      (map (replace_out_key output_replacements) (output_defs op))
|}.

(** A second instance, whose computation forgets its ports when it is
    asked for a substituted copy: it shows what the queries do when the
    collaborator does not keep the ports. *)
Definition forgetful_collaborators : Collaborators := {|
  get_valid_name_permutations := fun param_name =>
    ["_"; param_name; ("_" ++ param_name)%string; (param_name ++ "_")%string];
  set_iter := nodup string_dec;
  PartitionsDefinition := string;
  PartitionMapping := string;
  get_default_partition_mapping := fun scheme => ("default of " ++ scheme)%string;
  to_string := fun k => String.concat "/" (path k);
  op_with_replaced_asset_keys := fun op output_replacements input_replacements =>
    mk_OpDefinition (op_name op) (decorated_fn op) [] []
|}.

(** Sample values. *)
Definition plain_in : In_ := mk_In NoValueSentinel None None None.

Definition plain_out : Out := mk_Out NoValueSentinel None None None.

Definition sample_fn (names : list string) : PyFunction :=
  mk_PyFunction "compute" (map mk_FnParameter names).

Definition sample_op (inputs outputs : list string) : OpDefinition :=
  mk_OpDefinition "compute" (sample_fn inputs)
    (map (fun n => mk_InputDefinition n plain_in) inputs)
    (map (fun n => mk_OutputDefinition n plain_out) outputs).

Definition key (segments : list string) : AssetKey := mk_AssetKey segments.

(** A definition with one input [a] and one output [result], partitioned by
    the scheme [daily], with an explicit partition mapping for its input. *)
Definition partitioned_definition : AssetsDefinition :=
  mk_AssetsDefinition (sample_op ["a"] ["result"])
    [(key ["a"], mk_InputDefinition "a" plain_in)]
    [(key ["result"], mk_OutputDefinition "result" plain_out)]
    (Some "daily") [(key ["a"], "identity")].

(** * Facts about the Python containers *)

Section PyInFacts.
Context {A : Type} `{EqDec A}.

Lemma eqb_of_true_iff (x y : A) : eqb_of x y = true <-> x = y.
Proof.
  unfold eqb_of. destruct (eq_dec x y); split; intros; congruence.
Qed.

Lemma py_in_true_iff (x : A) (xs : list A) : py_in x xs = true <-> In x xs.
Proof.
  unfold py_in. rewrite existsb_exists. split.
  - intros [y [Hy Heq]]. apply eqb_of_true_iff in Heq. now subst.
  - intros Hin. exists x. split; [assumption | now apply eqb_of_true_iff].
Qed.

Lemma py_in_false_iff (x : A) (xs : list A) : py_in x xs = false <-> ~ In x xs.
Proof.
  rewrite <- py_in_true_iff. destruct (py_in x xs); split; intros; congruence.
Qed.
End PyInFacts.

Section DictFacts.
Context {K V : Type} `{EqDec K}.
Implicit Types (d : dict K V) (k : K) (v : V).

Lemma dict_get_set_same d k v : dict_get (dict_set d k v) k = Some v.
Proof.
  induction d as [| [k' v'] rest IH]; simpl.
  - destruct (eq_dec k k); congruence.
  - destruct (eq_dec k k') as [e | n]; simpl.
    + destruct (eq_dec k k'); congruence.
    + destruct (eq_dec k k'); congruence.
Qed.

Lemma dict_get_set_other d k v k' :
  k' <> k -> dict_get (dict_set d k v) k' = dict_get d k'.
Proof.
  intros Hne. induction d as [| [k0 v0] rest IH]; simpl.
  - destruct (eq_dec k' k); congruence.
  - destruct (eq_dec k k0) as [e | n]; simpl.
    + subst k0. destruct (eq_dec k' k); congruence.
    + destruct (eq_dec k' k0); congruence.
Qed.

Lemma dict_get_None_iff d k : dict_get d k = None <-> ~ In k (dict_keys d).
Proof.
  induction d as [| [k' v'] rest IH]; simpl.
  - tauto.
  - destruct (eq_dec k k') as [e | n].
    + split; [discriminate | intros Hn; exfalso; apply Hn; left; congruence].
    + rewrite IH. split; intros Hn; [intros [e | Hin] | ]; try congruence; tauto.
Qed.

Lemma dict_get_Some_key d k v : dict_get d k = Some v -> In k (dict_keys d).
Proof.
  intros Hget. destruct (in_dec eq_dec k (dict_keys d)) as [Hin | Hn]; [assumption |].
  apply dict_get_None_iff in Hn. congruence.
Qed.

Lemma dict_get_In d k v : dict_get d k = Some v -> In (k, v) d.
Proof.
  induction d as [| [k' v'] rest IH]; simpl; [discriminate |].
  destruct (eq_dec k k') as [e | n].
  - intros [= ->]. left. congruence.
  - intros Hget. right. now apply IH.
Qed.

Lemma dict_wf_In_get d k v : dict_wf d -> In (k, v) d -> dict_get d k = Some v.
Proof.
  unfold dict_wf. induction d as [| [k' v'] rest IH]; simpl; [tauto |].
  intros Hwf [Heq | Hin].
  - injection Heq as -> ->. destruct (eq_dec k k); congruence.
  - inversion Hwf as [| ? ? Hnotin Hrest]; subst.
    destruct (eq_dec k k') as [e | n].
    + subst k'. exfalso. apply Hnotin. change k with (fst (k, v)).
      now apply in_map.
    + now apply IH.
Qed.

Lemma dict_In_key d k : In k (dict_keys d) -> exists v, dict_get d k = Some v.
Proof.
  intros Hin. destruct (dict_get d k) as [v |] eqn:Hget; [now exists v |].
  apply dict_get_None_iff in Hget. contradiction.
Qed.

Lemma dict_set_present d k v :
  In k (dict_keys d) -> dict_keys (dict_set d k v) = dict_keys d.
Proof.
  induction d as [| [k' v'] rest IH]; simpl; [tauto |].
  intros Hin. destruct (eq_dec k k') as [e | n]; simpl; [reflexivity |].
  f_equal. apply IH. destruct Hin; congruence.
Qed.

Lemma dict_set_absent d k v :
  ~ In k (dict_keys d) -> dict_set d k v = d ++ [(k, v)].
Proof.
  induction d as [| [k' v'] rest IH]; simpl; [reflexivity |].
  intros Hn. destruct (eq_dec k k') as [e | n].
  - exfalso. apply Hn. left. congruence.
  - f_equal. apply IH. tauto.
Qed.

Lemma dict_set_In d k v k' v' :
  In (k', v') (dict_set d k v) -> (k', v') = (k, v) \/ In (k', v') d.
Proof.
  induction d as [| [k0 v0] rest IH]; simpl.
  - intros [Heq | []]. left. congruence.
  - destruct (eq_dec k k0) as [e | n]; simpl.
    + intros [Heq | Hin]; [left; congruence | tauto].
    + intros [Heq | Hin]; [tauto |]. destruct (IH Hin); tauto.
Qed.

Lemma dict_set_wf d k v : dict_wf d -> dict_wf (dict_set d k v).
Proof.
  intros Hwf. unfold dict_wf.
  destruct (in_dec eq_dec k (dict_keys d)) as [Hin | Hn].
  - now rewrite dict_set_present.
  - rewrite dict_set_absent by assumption. unfold dict_keys. rewrite map_app. simpl.
    apply NoDup_app; [exact Hwf | constructor; [tauto | constructor] |].
    intros x Hx [Heq | []]. subst. contradiction.
Qed.

Lemma dict_set_keys_In d k v k' :
  In k' (dict_keys (dict_set d k v)) <-> k' = k \/ In k' (dict_keys d).
Proof.
  destruct (in_dec eq_dec k (dict_keys d)) as [Hin | Hn].
  - rewrite dict_set_present by assumption. split; [tauto |].
    intros [-> | Hk]; assumption.
  - rewrite dict_set_absent by assumption. unfold dict_keys. rewrite map_app, in_app_iff.
    simpl. split; intros Hk; intuition congruence.
Qed.
End DictFacts.

(** A run of assignments [acc[f x] = g x] for [x] in [xs]: the shape of
    every loop and comprehension that fills a dict in the two modules. *)
Section AssignFacts.
Context {A K V : Type} `{EqDec K}.
Variables (f : A -> K) (g : A -> V).

Let assign (acc : dict K V) (x : A) : dict K V := dict_set acc (f x) (g x).

Lemma assign_all_wf xs acc :
  dict_wf acc -> dict_wf (fold_left assign xs acc).
Proof.
  revert acc. induction xs as [| x rest IH]; intros acc Hwf; simpl; [assumption |].
  apply IH. now apply dict_set_wf.
Qed.

Lemma assign_all_keys_In xs acc k :
  In k (dict_keys (fold_left assign xs acc))
  <-> In k (dict_keys acc) \/ In k (map f xs).
Proof.
  revert acc. induction xs as [| x rest IH]; intros acc; simpl; [tauto |].
  rewrite IH. unfold assign. rewrite dict_set_keys_In.
  split; intros Hk; intuition congruence.
Qed.

(** A value that every later assignment to [k] repeats is still there at
    the end. *)
Lemma assign_all_get_stable xs acc k v :
  dict_get acc k = Some v ->
  (forall x, In x xs -> f x = k -> g x = v) ->
  dict_get (fold_left assign xs acc) k = Some v.
Proof.
  revert acc. induction xs as [| x rest IH]; intros acc Hget Hsame; simpl; [assumption |].
  apply IH; [| intros y Hy; apply Hsame; now right].
  unfold assign. destruct (eq_dec k (f x)) as [e | n].
  - rewrite e, dict_get_set_same. f_equal. apply Hsame; [now left | congruence].
  - now rewrite dict_get_set_other.
Qed.

(** The entry of [f p] is [g p] when every [x] assigned to that key
    carries that value. *)
Lemma assign_all_get_agreed xs acc p :
  In p xs ->
  (forall x, In x xs -> f x = f p -> g x = g p) ->
  dict_get (fold_left assign xs acc) (f p) = Some (g p).
Proof.
  revert acc p. induction xs as [| x rest IH]; intros acc p Hin Hsame; simpl; [destruct Hin |].
  destruct (in_dec eq_dec (f p) (map f rest)) as [Hlater | Hnot].
  - apply in_map_iff in Hlater. destruct Hlater as [y [Hfy Hy]].
    assert (Hgy : g y = g p) by (apply Hsame; [now right | assumption]).
    rewrite <- Hfy, <- Hgy. apply IH; [assumption |].
    intros z Hz Hfz. rewrite Hgy. apply Hsame; [now right | congruence].
  - destruct Hin as [-> | Hin]; [| exfalso; apply Hnot; now apply in_map].
    apply assign_all_get_stable.
    + unfold assign. apply dict_get_set_same.
    + intros y Hy Hfy. exfalso. apply Hnot. rewrite <- Hfy. now apply in_map.
Qed.

Lemma assign_all_get_untouched xs acc k :
  ~ In k (map f xs) ->
  dict_get (fold_left assign xs acc) k = dict_get acc k.
Proof.
  revert acc. induction xs as [| x rest IH]; intros acc Hnot; simpl; [reflexivity |].
  rewrite IH by (intros Hin; apply Hnot; now right).
  unfold assign. apply dict_get_set_other. intros ->. apply Hnot. now left.
Qed.

(** The last assignment to a key decides its entry. *)
Lemma assign_all_get_last xs acc k :
  In k (map f xs) ->
  exists q, In q xs /\ f q = k /\ dict_get (fold_left assign xs acc) k = Some (g q).
Proof.
  revert acc. induction xs as [| x rest IH]; intros acc Hin; simpl; [destruct Hin |].
  destruct (in_dec eq_dec k (map f rest)) as [Hlater | Hnot].
  - destruct (IH (assign acc x) Hlater) as [q [Hq [Hfq Hget]]].
    exists q. split; [now right | split; assumption].
  - destruct Hin as [Hfx | Hin]; [| contradiction].
    exists x. split; [now left | split; [assumption |]].
    rewrite assign_all_get_untouched by assumption.
    unfold assign. rewrite Hfx. apply dict_get_set_same.
Qed.

(** Assignments to fresh, pairwise distinct keys append in order. *)
Lemma assign_all_fresh xs acc :
  NoDup (map f xs) ->
  (forall x, In x xs -> ~ In (f x) (dict_keys acc)) ->
  fold_left assign xs acc = acc ++ map (fun x => (f x, g x)) xs.
Proof.
  revert acc. induction xs as [| x rest IH]; intros acc Hnd Hfresh; simpl.
  - now rewrite app_nil_r.
  - inversion Hnd as [| ? ? Hx Hrest]; subst.
    unfold assign at 2. rewrite dict_set_absent by (apply Hfresh; now left).
    rewrite IH; [now rewrite <- app_assoc | assumption |].
    intros y Hy. unfold dict_keys. rewrite map_app, in_app_iff. simpl.
    intros [Hin | [Heq | []]].
    + apply (Hfresh y); [now right | assumption].
    + apply Hx. rewrite Heq. now apply in_map.
Qed.

(** A comprehension none of whose entries raises is a run of
    assignments. *)
Lemma dict_comprehension_total (entry : A -> Result (K * V)) xs acc :
  (forall x, In x xs -> entry x = Ok (f x, g x)) ->
  dict_comprehension entry xs acc = Ok (fold_left assign xs acc).
Proof.
  revert acc. induction xs as [| x rest IH]; intros acc Hok; simpl; [reflexivity |].
  rewrite (Hok x) by now left. simpl. apply IH. intros y Hy. apply Hok. now right.
Qed.
End AssignFacts.

Section ComprehensionFacts.
Context {A K V : Type} `{EqDec K}.

Lemma dict_of_items_wf (items : list (K * V)) : dict_wf (dict_of_items items).
Proof.
  unfold dict_of_items. apply (assign_all_wf fst snd). constructor.
Qed.

Lemma dict_of_items_distinct (items : list (K * V)) :
  NoDup (map fst items) -> dict_of_items items = items.
Proof.
  intros Hnd. unfold dict_of_items.
  rewrite (assign_all_fresh fst snd) by (simpl; auto). simpl.
  rewrite <- (map_id items) at 2. apply map_ext. now intros [k v].
Qed.

Lemma dict_of_items_map (h : A -> K * V) (xs : list A) :
  dict_of_items (map h xs)
  = fold_left (fun acc x => dict_set acc (fst (h x)) (snd (h x))) xs [].
Proof.
  unfold dict_of_items. generalize (@nil (K * V)).
  induction xs as [| x rest IH]; intros acc; simpl; [reflexivity | apply IH].
Qed.

(** What holds of the empty dict and is kept by every assignment holds of
    the dict a comprehension returns. *)
Lemma dict_comprehension_invariant
    (P : dict K V -> Prop) (entry : A -> Result (K * V)) xs acc d :
  P acc ->
  (forall a x kv, P a -> In x xs -> entry x = Ok kv ->
                  P (dict_set a (fst kv) (snd kv))) ->
  dict_comprehension entry xs acc = Ok d ->
  P d.
Proof.
  revert acc. induction xs as [| x rest IH]; intros acc Hacc Hstep; simpl.
  - now intros [= <-].
  - destruct (entry x) as [kv | e] eqn:Hentry; simpl; [| discriminate].
    apply IH.
    + apply (Hstep acc x kv); [assumption | now left | assumption].
    + intros a y kv' Ha Hy. apply Hstep; [assumption | now right].
Qed.

(** A comprehension returns a dict or raises the exception of its first
    failing entry; it never returns a partly filled dict. *)
Lemma dict_comprehension_raises (entry : A -> Result (K * V)) xs acc e :
  dict_comprehension entry xs acc = Raise e ->
  exists x, In x xs /\ entry x = Raise e.
Proof.
  revert acc. induction xs as [| x rest IH]; intros acc; simpl; [discriminate |].
  destruct (entry x) as [kv | e'] eqn:Hentry; simpl.
  - intros Hrest. destruct (IH _ Hrest) as [y [Hy Hey]]. exists y. split; [now right | assumption].
  - intros [= ->]. exists x. split; [now left | assumption].
Qed.
End ComprehensionFacts.

Section ForEachFacts.
Context {A : Type}.

Lemma for_each_passes (xs : list A) (body : A -> Result unit) :
  (forall x, In x xs -> body x = Ok tt) -> for_each xs body = Ok tt.
Proof.
  induction xs as [| x rest IH]; intros Hok; simpl; [reflexivity |].
  rewrite Hok by now left. simpl. apply IH. intros y Hy. apply Hok. now right.
Qed.

(** A loop one of whose iterations raises ends with the exception of an
    iteration. *)
Lemma for_each_raises (xs : list A) (body : A -> Result unit) x e :
  In x xs -> body x = Raise e ->
  exists y e', In y xs /\ body y = Raise e' /\ for_each xs body = Raise e'.
Proof.
  induction xs as [| z rest IH]; intros Hin Hbody; simpl; [destruct Hin |].
  destruct (body z) as [[] | e0] eqn:Hz; simpl.
  - destruct Hin as [-> | Hin]; [congruence |].
    destruct (IH Hin Hbody) as [y [e' [Hy [Hbe Hfe]]]].
    exists y, e'. split; [now right | split; assumption].
  - exists z, e0. split; [now left | split; [assumption | reflexivity]].
Qed.
End ForEachFacts.

(** * Input inference ([build_asset_ins], [_infer_asset_key_by_input_name]) *)

Section InputInference.
Context `{Collaborators}.

Lemma input_param_names_declared (fn_params : list FnParameter) :
  incl (_get_input_param_names fn_params) (map param_name fn_params).
Proof.
  unfold _get_input_param_names. destruct fn_params as [| first rest]; simpl.
  - intros x Hx. exact Hx.
  - destruct (py_in (param_name first) (get_valid_name_permutations "context")); simpl.
    + intros x Hx. now right.
    + intros x Hx. exact Hx.
Qed.

(** The check of the override names passes exactly when every override
    names an input parameter. *)
Lemma override_check_passes (names : list string) (overrides : list string)
    (msg : string -> string) :
  incl overrides names ->
  for_each overrides (fun in_key =>
    if negb (py_in in_key names)
    then Raise (DagsterInvalidDefinitionError (msg in_key))
    else Ok tt) = Ok tt.
Proof.
  intros Hincl. apply for_each_passes. intros x Hx.
  apply Hincl, py_in_true_iff in Hx. now rewrite Hx.
Qed.

Lemma override_check_raises (names : list string) (overrides : list string)
    (msg : string -> string) (name : string) :
  In name overrides -> ~ In name names ->
  exists bad,
    In bad overrides /\ ~ In bad names /\
    for_each overrides (fun in_key =>
      if negb (py_in in_key names)
      then Raise (DagsterInvalidDefinitionError (msg in_key))
      else Ok tt) = Raise (DagsterInvalidDefinitionError (msg bad)).
Proof.
  intros Hin Hnot.
  destruct (@for_each_raises _ overrides
              (fun in_key => if negb (py_in in_key names)
                             then Raise (DagsterInvalidDefinitionError (msg in_key))
                             else Ok tt)
              name (DagsterInvalidDefinitionError (msg name)) Hin)
    as [bad [e [Hbad [Hbody Hloop]]]].
  - apply py_in_false_iff in Hnot. now rewrite Hnot.
  - exists bad. destruct (py_in bad names) eqn:Hpy; simpl in Hbody; [discriminate |].
    injection Hbody as <-. apply py_in_false_iff in Hpy. auto.
Qed.

(** With every override naming an input parameter, [build_asset_ins]
    returns the dict that its two loops fill. *)
Lemma build_asset_ins_returns fn asset_namespace asset_ins non_argument_deps :
  incl (dict_keys asset_ins) (_get_input_param_names (get_function_params fn)) ->
  build_asset_ins fn asset_namespace asset_ins non_argument_deps
  = Ok (ins_add_non_argument_deps (opt_set_param non_argument_deps)
          (ins_of_input_names asset_namespace asset_ins
             (set_iter (_get_input_param_names (get_function_params fn)
                        ++ dict_keys asset_ins)))).
Proof.
  intros Hincl. unfold build_asset_ins.
  now rewrite (@override_check_passes _ _ _ Hincl).
Qed.
End InputInference.

(** C7.  An input override whose name is not among the declared parameter
    names of the computation makes input inference fail with
    [DagsterInvalidDefinitionError], whatever the other overrides, the
    namespace and the dependency-only keys are; this holds of
    [build_asset_ins] and of [_infer_asset_key_by_input_name]. *)
Theorem override_of_undeclared_parameter_fails `{Collaborators}
    (fn : PyFunction) (name : string) :
  ~ In name (map param_name (get_function_params fn)) ->
  (forall asset_namespace asset_ins non_argument_deps,
      In name (dict_keys asset_ins) ->
      exists msg,
        build_asset_ins fn asset_namespace asset_ins non_argument_deps
        = Raise (DagsterInvalidDefinitionError msg))
  /\ (forall op_def asset_key_by_input_name,
         decorated_fn op_def = fn ->
         In name (dict_keys asset_key_by_input_name) ->
         exists msg,
           _infer_asset_key_by_input_name op_def asset_key_by_input_name
           = Raise (DagsterInvalidDefinitionError msg)).
Proof.
  intros Hundeclared.
  assert (Hnot : ~ In name (_get_input_param_names (get_function_params fn))).
  { intros Hin. apply Hundeclared. now apply input_param_names_declared. }
  split.
  - intros asset_namespace asset_ins non_argument_deps Hin.
    unfold build_asset_ins.
    destruct (@override_check_raises _ _
                (fun in_key =>
                   ("Key '" ++ in_key ++ "' in provided ins dict does not correspond to any of the names "
                    ++ "of the arguments to the decorated function")%string)
                name Hin Hnot) as [bad [_ [_ Hloop]]].
    rewrite Hloop. simpl. eauto.
  - intros op_def table <- Hin.
    unfold _infer_asset_key_by_input_name.
    destruct (@override_check_raises _ _
                (fun in_key =>
                   ("Key '" ++ in_key ++ "' in provided asset_key_by_input_name dict does not correspond to "
                    ++ "any key provided in the ins dictionary of the decorated op or any argument "
                    ++ "to the decorated function")%string)
                name Hin Hnot) as [bad [_ [_ Hloop]]].
    rewrite Hloop. simpl. eauto.
Qed.

(** An override named [y] on a computation declaring [(context, x)]. *)
Lemma override_of_undeclared_parameter_fails_witness :
  exists msg,
    build_asset_ins (sample_fn ["context"; "x"]) None
      [("y", mk_AssetIn None None None)] None
    = Raise (DagsterInvalidDefinitionError msg).
Proof.
  refine (proj1 (@override_of_undeclared_parameter_fails reference_collaborators
                   (sample_fn ["context"; "x"]) "y" _)
            None [("y", mk_AssetIn None None None)] None _).
  - simpl. intros [e | [e | []]]; discriminate.
  - simpl. now left.
Defined.

(** C1.  For a computation declaring [(context, upstream_a, upstream_b)],
    with [upstream_a] overridden to the key [["ns"; "A"]] and no override
    for [upstream_b], no default namespace and no dependency-only keys,
    input inference strips the leading context parameter and returns
    exactly the mapping from [["ns"; "A"]] to the local name [upstream_a]
    and from [["upstream_b"]] to the local name [upstream_b], in whichever
    order the set of input names is iterated. *)
Theorem inputs_of_context_upstream_a_upstream_b `{Collaborators}
    (fname : string) (metadata : option Metadata) (namespace : option (list string)) :
  context_is_recognized ->
  set_iter_is_set ->
  exists ins,
    build_asset_ins
      (mk_PyFunction fname
         [mk_FnParameter "context"; mk_FnParameter "upstream_a";
          mk_FnParameter "upstream_b"])
      None
      [("upstream_a", mk_AssetIn (Some (mk_AssetKey ["ns"; "A"])) metadata namespace)]
      None
    = Ok ins
    /\ Permutation ins
         [(mk_AssetKey ["ns"; "A"],
           ("upstream_a",
            mk_In NoValueSentinel (Some (seq_or metadata [])) (Some "root_manager") None));
          (mk_AssetKey ["upstream_b"],
           ("upstream_b",
            mk_In NoValueSentinel (Some []) (Some "root_manager") None))]
    /\ Permutation (map (fun item => (fst item, fst (snd item))) ins)
         [(mk_AssetKey ["ns"; "A"], "upstream_a");
          (mk_AssetKey ["upstream_b"], "upstream_b")].
Proof.
  intros Hctx Hset.
  assert (Hnames :
    _get_input_param_names
      [mk_FnParameter "context"; mk_FnParameter "upstream_a"; mk_FnParameter "upstream_b"]
    = ["upstream_a"; "upstream_b"]).
  { unfold _get_input_param_names. simpl param_name. unfold context_is_recognized in Hctx.
    rewrite Hctx. reflexivity. }
  rewrite build_asset_ins_returns.
  - unfold get_function_params. simpl fn_parameters. rewrite Hnames.
    simpl dict_keys. simpl app.
    pose proof (Hset ["upstream_a"; "upstream_b"; "upstream_a"]) as Hperm.
    change (nodup string_dec ["upstream_a"; "upstream_b"; "upstream_a"])
      with ["upstream_b"; "upstream_a"] in Hperm.
    apply Permutation_sym, Permutation_length_2_inv in Hperm.
    destruct Hperm as [-> | ->]; eexists; (split; [reflexivity |]); split.
    + vm_compute. apply perm_swap.
    + vm_compute. apply perm_swap.
    + vm_compute. apply Permutation_refl.
    + vm_compute. apply Permutation_refl.
  - unfold get_function_params. simpl fn_parameters. rewrite Hnames.
    intros x [<- | []]. now left.
Qed.

(** The same computation on the reference collaborators, with an override that carries no metadata and no namespace. *)
Lemma inputs_of_context_upstream_a_upstream_b_witness :
  exists ins,
    build_asset_ins (sample_fn ["context"; "upstream_a"; "upstream_b"]) None
      [("upstream_a", mk_AssetIn (Some (mk_AssetKey ["ns"; "A"])) None None)] None
    = Ok ins
    /\ Permutation ins
         [(mk_AssetKey ["ns"; "A"],
           ("upstream_a",
            mk_In NoValueSentinel (Some []) (Some "root_manager") None));
          (mk_AssetKey ["upstream_b"],
           ("upstream_b",
            mk_In NoValueSentinel (Some []) (Some "root_manager") None))]
    /\ Permutation (map (fun item => (fst item, fst (snd item))) ins)
         [(mk_AssetKey ["ns"; "A"], "upstream_a");
          (mk_AssetKey ["upstream_b"], "upstream_b")].
Proof.
  apply (@inputs_of_context_upstream_a_upstream_b reference_collaborators
           "compute" None None).
  - reflexivity.
  - intros l. apply Permutation_refl.
Defined.

(** ** The two loops of [build_asset_ins] *)

Section InputLoops.
Context `{Collaborators}.
Variables (asset_namespace : option (list string)) (asset_ins : dict string AssetIn).

Lemma ins_of_input_names_wf names :
  dict_wf (ins_of_input_names asset_namespace asset_ins names).
Proof.
  apply (assign_all_wf (input_asset_key asset_namespace asset_ins)
           (parameter_entry asset_ins)).
  constructor.
Qed.

Lemma ins_of_input_names_unique names p :
  In p names ->
  (forall n, In n names ->
             input_asset_key asset_namespace asset_ins n
             = input_asset_key asset_namespace asset_ins p -> n = p) ->
  dict_get (ins_of_input_names asset_namespace asset_ins names)
    (input_asset_key asset_namespace asset_ins p)
  = Some (parameter_entry asset_ins p).
Proof.
  intros Hin Huniq.
  apply (assign_all_get_agreed (input_asset_key asset_namespace asset_ins)
           (parameter_entry asset_ins) names [] p Hin).
  intros n Hn Hkey. now rewrite (Huniq n Hn Hkey).
Qed.

Lemma ins_of_input_names_last names k :
  In k (map (input_asset_key asset_namespace asset_ins) names) ->
  exists q,
    In q names /\ input_asset_key asset_namespace asset_ins q = k /\
    dict_get (ins_of_input_names asset_namespace asset_ins names) k
    = Some (parameter_entry asset_ins q).
Proof.
  apply (assign_all_get_last (input_asset_key asset_namespace asset_ins)
           (parameter_entry asset_ins) names []).
Qed.

Lemma ins_add_non_argument_deps_wf deps ins :
  dict_wf ins -> dict_wf (ins_add_non_argument_deps deps ins).
Proof.
  apply (assign_all_wf (fun k : AssetKey => k) dependency_entry).
Qed.

Lemma ins_add_non_argument_deps_entry deps ins k :
  In k deps ->
  dict_get (ins_add_non_argument_deps deps ins) k = Some (dependency_entry k).
Proof.
  intros Hin.
  apply (assign_all_get_agreed (fun k : AssetKey => k) dependency_entry deps ins k Hin).
  now intros n _ ->.
Qed.

Lemma ins_add_non_argument_deps_untouched deps ins k :
  ~ In k deps ->
  dict_get (ins_add_non_argument_deps deps ins) k = dict_get ins k.
Proof.
  intros Hnot.
  apply (assign_all_get_untouched (fun k : AssetKey => k) dependency_entry).
  now rewrite map_id.
Qed.

Lemma set_iter_In (l : list string) (x : string) :
  set_iter_is_set -> (In x (set_iter l) <-> In x l).
Proof.
  intros Hset. split; intros Hin.
  - apply (nodup_In string_dec). eapply Permutation_in; [apply Hset | assumption].
  - apply (nodup_In string_dec) in Hin.
    eapply Permutation_in; [apply Permutation_sym, Hset | assumption].
Qed.
End InputLoops.

(** C5, as stated, fails: for a declared parameter [a_b] together with the
    dependency-only key [["a"; "b"]], input inference raises nothing and
    returns both keys with the local port name [a_b]. *)
Lemma colliding_port_names_do_not_fail :
  build_asset_ins (sample_fn ["a_b"]) None [] (Some [key ["a"; "b"]])
  = Ok [(key ["a_b"], ("a_b", mk_In NoValueSentinel (Some []) (Some "root_manager") None));
        (key ["a"; "b"], ("a_b", mk_In Nothing None None (Some (key ["a"; "b"]))))]
  /\ ~ (exists msg,
          build_asset_ins (sample_fn ["a_b"]) None [] (Some [key ["a"; "b"]])
          = Raise (DagsterInvalidDefinitionError msg)).
Proof.
  split; [reflexivity |]. intros [msg Hraise]. vm_compute in Hraise. discriminate.
Qed.

(** C5, amended.  [build_asset_ins] makes no check for duplicate local port
    names: whenever every override names an input parameter it returns a
    dict, whatever local port names coincide.  In that dict every
    dependency-only key [k] carries the local port name spelled by its
    segments joined by [_]; so two distinct dependency-only keys with the
    same joined name are both returned under that one name, and a parameter
    [p] whose key no other parameter shares and that is not itself a
    dependency-only key, together with a dependency-only key [k] whose
    joined segments spell [p], gives two distinct keys that both carry the
    local port name [p]. *)
Theorem colliding_port_names_are_both_returned `{Collaborators}
    (fn : PyFunction) (asset_namespace : option (list string))
    (asset_ins : dict string AssetIn) (non_argument_deps : option (list AssetKey)) :
  set_iter_is_set ->
  incl (dict_keys asset_ins) (_get_input_param_names (get_function_params fn)) ->
  exists ins,
    build_asset_ins fn asset_namespace asset_ins non_argument_deps = Ok ins
    /\ (forall k,
           In k (opt_set_param non_argument_deps) ->
           dict_get ins k
           = Some (String.concat "_" (path k), mk_In Nothing None None (Some k)))
    /\ (forall k1 k2,
           In k1 (opt_set_param non_argument_deps) ->
           In k2 (opt_set_param non_argument_deps) ->
           k1 <> k2 ->
           String.concat "_" (path k1) = String.concat "_" (path k2) ->
           exists name in_1 in_2,
             dict_get ins k1 = Some (name, in_1) /\ dict_get ins k2 = Some (name, in_2))
    /\ (forall p k,
           In p (_get_input_param_names (get_function_params fn)) ->
           (forall n, In n (_get_input_param_names (get_function_params fn)) ->
                      input_asset_key asset_namespace asset_ins n
                      = input_asset_key asset_namespace asset_ins p -> n = p) ->
           In k (opt_set_param non_argument_deps) ->
           ~ In (input_asset_key asset_namespace asset_ins p)
                (opt_set_param non_argument_deps) ->
           String.concat "_" (path k) = p ->
           input_asset_key asset_namespace asset_ins p <> k
           /\ dict_get ins (input_asset_key asset_namespace asset_ins p)
              = Some (p, mk_In NoValueSentinel (Some (input_metadata asset_ins p))
                           (Some "root_manager") None)
           /\ dict_get ins k = Some (p, mk_In Nothing None None (Some k))).
Proof.
  intros Hset Hvalid.
  rewrite build_asset_ins_returns by assumption.
  eexists. split; [reflexivity |].
  assert (Hdeps : forall k,
             In k (opt_set_param non_argument_deps) ->
             dict_get
               (ins_add_non_argument_deps (opt_set_param non_argument_deps)
                  (ins_of_input_names asset_namespace asset_ins
                     (set_iter (_get_input_param_names (get_function_params fn)
                                ++ dict_keys asset_ins)))) k
             = Some (String.concat "_" (path k), mk_In Nothing None None (Some k))).
  { intros k Hk. now rewrite ins_add_non_argument_deps_entry by assumption. }
  split; [exact Hdeps |]. split.
  - intros k1 k2 Hk1 Hk2 _ Hjoin.
    exists (String.concat "_" (path k1)),
           (mk_In Nothing None None (Some k1)), (mk_In Nothing None None (Some k2)).
    split; [now apply Hdeps |]. rewrite Hjoin. now apply Hdeps.
  - intros p k Hp Huniq Hk Hfree Hjoin. split; [| split].
    + intros Heq. apply Hfree. now rewrite Heq.
    + rewrite ins_add_non_argument_deps_untouched by assumption.
      apply ins_of_input_names_unique.
      * apply set_iter_In; [assumption |]. apply in_or_app. now left.
      * intros n Hn. apply Huniq. apply (proj1 (@set_iter_In _ _ _ Hset)) in Hn.
        apply in_app_or in Hn. destruct Hn as [Hn | Hn]; [assumption | now apply Hvalid].
    + rewrite <- Hjoin. now apply Hdeps.
Qed.

(** The parameter [a_b] with the dependency-only keys [["a"; "b"]],
    [["x"; "y"]] and [["x_y"]]: the first collides with the parameter, the
    other two with each other, and all four keys are returned. *)
Lemma colliding_port_names_are_both_returned_witness :
  exists ins,
    build_asset_ins (sample_fn ["a_b"]) None []
      (Some [key ["a"; "b"]; key ["x"; "y"]; key ["x_y"]]) = Ok ins
    /\ dict_get ins (key ["a_b"])
       = Some ("a_b", mk_In NoValueSentinel (Some []) (Some "root_manager") None)
    /\ dict_get ins (key ["a"; "b"])
       = Some ("a_b", mk_In Nothing None None (Some (key ["a"; "b"])))
    /\ dict_get ins (key ["x"; "y"])
       = Some ("x_y", mk_In Nothing None None (Some (key ["x"; "y"])))
    /\ dict_get ins (key ["x_y"])
       = Some ("x_y", mk_In Nothing None None (Some (key ["x_y"]))).
Proof.
  destruct (@colliding_port_names_are_both_returned reference_collaborators
              (sample_fn ["a_b"]) None []
              (Some [key ["a"; "b"]; key ["x"; "y"]; key ["x_y"]]))
    as [ins [Hok [Hdeps [_ Hparam]]]].
  - intros l. apply Permutation_refl.
  - intros x [].
  - exists ins. split; [exact Hok |].
    destruct (Hparam "a_b" (key ["a"; "b"])) as [_ [Hp Hk]].
    + simpl. now left.
    + simpl. intros n [<- | []] _. reflexivity.
    + simpl. now left.
    + simpl. intros [e | [e | [e | []]]]; discriminate.
    + reflexivity.
    + split; [exact Hp |]. split; [exact Hk |]. split.
      * apply (Hdeps (key ["x"; "y"])). simpl. right. now left.
      * apply (Hdeps (key ["x_y"])). simpl. right. right. now left.
Defined.

(** C10.  When a dependency-only key equals the key inferred for a declared
    parameter (and every override names an input parameter, so that the
    override check passes), no error is raised: the returned dict holds the
    key once, and its entry is the dependency-only one, whose local port
    name is the key's segments joined by [_] and whose port receives no
    value at run time; the entry that the first loop had stored for a
    parameter under that key is gone. *)
Theorem dependency_only_key_replaces_parameter_entry `{Collaborators}
    (fn : PyFunction) (asset_namespace : option (list string))
    (asset_ins : dict string AssetIn) (non_argument_deps : option (list AssetKey))
    (p : string) (k : AssetKey) :
  set_iter_is_set ->
  incl (dict_keys asset_ins) (_get_input_param_names (get_function_params fn)) ->
  In p (_get_input_param_names (get_function_params fn)) ->
  input_asset_key asset_namespace asset_ins p = k ->
  In k (opt_set_param non_argument_deps) ->
  exists ins,
    build_asset_ins fn asset_namespace asset_ins non_argument_deps = Ok ins
    /\ dict_wf ins
    /\ dict_get ins k
       = Some (String.concat "_" (path k), mk_In Nothing None None (Some k))
    /\ exists q,
         In q (_get_input_param_names (get_function_params fn))
         /\ input_asset_key asset_namespace asset_ins q = k
         /\ dict_get
              (ins_of_input_names asset_namespace asset_ins
                 (set_iter (_get_input_param_names (get_function_params fn)
                            ++ dict_keys asset_ins))) k
            = Some (q, mk_In NoValueSentinel (Some (input_metadata asset_ins q))
                         (Some "root_manager") None).
Proof.
  intros Hset Hvalid Hp Hkey Hk.
  rewrite build_asset_ins_returns by assumption.
  eexists. split; [reflexivity |]. split; [| split].
  - apply ins_add_non_argument_deps_wf, ins_of_input_names_wf.
  - now apply ins_add_non_argument_deps_entry.
  - destruct (ins_of_input_names_last asset_namespace asset_ins
                (set_iter (_get_input_param_names (get_function_params fn)
                           ++ dict_keys asset_ins)) k)
      as [q [Hq [Hkq Hget]]].
    + rewrite <- Hkey. apply in_map. apply set_iter_In; [assumption |].
      apply in_or_app. now left.
    + exists q. split; [| split; assumption].
      apply (proj1 (@set_iter_In _ _ _ Hset)) in Hq.
      apply in_app_or in Hq. destruct Hq as [Hq | Hq]; [assumption | now apply Hvalid].
Qed.

(** The parameter [a] with the dependency-only key [["a"]]. *)
Lemma dependency_only_key_replaces_parameter_entry_witness :
  exists ins,
    build_asset_ins (sample_fn ["a"]) None [] (Some [key ["a"]]) = Ok ins
    /\ dict_wf ins
    /\ dict_get ins (key ["a"])
       = Some (String.concat "_" (path (key ["a"])),
               mk_In Nothing None None (Some (key ["a"])))
    /\ exists q,
         In q (_get_input_param_names (get_function_params (sample_fn ["a"])))
         /\ input_asset_key None [] q = key ["a"]
         /\ dict_get
              (ins_of_input_names None []
                 (set_iter (_get_input_param_names (get_function_params (sample_fn ["a"]))
                            ++ dict_keys (@nil (string * AssetIn))))) (key ["a"])
            = Some (q, mk_In NoValueSentinel (Some (input_metadata [] q))
                         (Some "root_manager") None).
Proof.
  apply (@dependency_only_key_replaces_parameter_entry reference_collaborators
           (sample_fn ["a"]) None [] (Some [key ["a"]]) "a" (key ["a"])).
  - intros l. apply Permutation_refl.
  - intros x [].
  - simpl. now left.
  - reflexivity.
  - simpl. now left.
Defined.

(** * Output inference ([build_asset_outs], [_infer_asset_key_by_output_name]) *)

(** C2, on [build_asset_outs].  The dict [asset_keys_by_out_name], which
    holds the explicit key of each declared output, is computed and never
    read: an output declared with the explicit key [["ns"; "A"]] comes back
    under the synthesized key [["a"]]; and with an override table that
    names only the output [a], the declared output [b] is missing from the
    result. *)
Theorem build_asset_outs_loses_explicit_keys_and_ports :
  build_asset_outs "op"
    [("a", mk_Out NoValueSentinel None None (Some (key ["ns"; "A"])))] [] None
  = [(key ["a"],
      ("a", Some (mk_Out NoValueSentinel None None (Some (key ["ns"; "A"])))))]
  /\ build_asset_outs "op" [("a", plain_out); ("b", plain_out)] []
       (Some [("a", key ["ns"; "A"])])
     = [(key ["ns"; "A"], ("a", Some plain_out))].
Proof.
  split; reflexivity.
Qed.

Section OutputInference.
Variables (op_def : OpDefinition) (asset_key_by_output_name : dict string AssetKey).

(** The second loop of [_infer_asset_key_by_output_name]. *)
Let fill (inferred : dict string AssetKey) (names : list string) :=
  fold_left
    (fun inferred key =>
       if negb (dict_contains inferred key)
       then dict_set inferred key (mk_AssetKey [key])
       else inferred)
    names inferred.

Lemma fill_keeps inferred names n k :
  dict_get inferred n = Some k -> dict_get (fill inferred names) n = Some k.
Proof.
  revert inferred. induction names as [| x rest IH]; intros inferred Hget; simpl.
  - assumption.
  - apply IH. destruct (dict_contains inferred x) eqn:Hc; simpl; [assumption |].
    rewrite dict_get_set_other; [assumption |].
    intros ->. apply py_in_false_iff in Hc. apply Hc.
    now apply dict_get_Some_key with (v := k).
Qed.

Lemma fill_synthesizes inferred names n :
  In n names -> dict_get inferred n = None ->
  dict_get (fill inferred names) n = Some (mk_AssetKey [n]).
Proof.
  revert inferred. induction names as [| x rest IH]; intros inferred Hin Hget; simpl.
  - destruct Hin.
  - destruct (string_dec x n) as [-> | Hne].
    + apply fill_keeps.
      assert (Hc : dict_contains inferred n = false).
      { apply py_in_false_iff. now apply dict_get_None_iff. }
      rewrite Hc. simpl. apply dict_get_set_same.
    + apply IH; [destruct Hin; congruence |].
      destruct (dict_contains inferred x); simpl; [assumption |].
      rewrite dict_get_set_other; [assumption | congruence].
Qed.

(** The sibling of [build_asset_outs] does what C2 asks: every declared
    output gets its explicit key when the table has one and the
    synthesized single-segment key otherwise, and an override of an
    undeclared output is an error. *)
Lemma infer_asset_key_by_output_name_spec :
  (incl (dict_keys asset_key_by_output_name) (dict_keys (op_outs op_def)) ->
   exists inferred,
     _infer_asset_key_by_output_name op_def asset_key_by_output_name = Ok inferred
     /\ forall n, In n (dict_keys (op_outs op_def)) ->
                  dict_get inferred n
                  = Some (dict_get_default asset_key_by_output_name n (mk_AssetKey [n])))
  /\ (forall n, In n (dict_keys asset_key_by_output_name) ->
                ~ In n (dict_keys (op_outs op_def)) ->
                exists msg,
                  _infer_asset_key_by_output_name op_def asset_key_by_output_name
                  = Raise (DagsterInvalidDefinitionError msg)).
Proof.
  split.
  - intros Hincl. unfold _infer_asset_key_by_output_name.
    rewrite for_each_passes.
    + simpl. eexists. split; [reflexivity |]. intros n Hn.
      unfold dict_get_default.
      destruct (dict_get asset_key_by_output_name n) as [k |] eqn:Hget.
      * now apply fill_keeps.
      * now apply fill_synthesizes.
    + intros [n k] Hitem. simpl.
      assert (Hc : dict_contains (op_outs op_def) n = true).
      { apply py_in_true_iff, Hincl. change n with (fst (n, k)). now apply in_map. }
      now rewrite Hc.
  - intros n Hin Hnot. unfold _infer_asset_key_by_output_name.
    apply in_map_iff in Hin. destruct Hin as [[n' k] [Hfst Hitem]]. simpl in Hfst. subst n'.
    destruct (@for_each_raises _ (dict_items asset_key_by_output_name)
                (fun item =>
                   if negb (dict_contains (op_outs op_def) (fst item))
                   then Raise (DagsterInvalidDefinitionError
                          ("Key " ++ fst item ++ " in provided asset_key_by_output_name does not correspond "
                           ++ "to any key provided in the out dictionary of the decorated op"))
                   else Ok tt)
                (n, k)
                (DagsterInvalidDefinitionError
                   ("Key " ++ n ++ " in provided asset_key_by_output_name does not correspond "
                    ++ "to any key provided in the out dictionary of the decorated op"))
                Hitem)
      as [bad [e [_ [Hbody Hloop]]]].
    + simpl. apply py_in_false_iff in Hnot. unfold dict_contains. now rewrite Hnot.
    + rewrite Hloop. simpl.
      destruct (dict_contains (op_outs op_def) (fst bad)); simpl in Hbody; [discriminate |].
      injection Hbody as <-. eauto.
Qed.
End OutputInference.

(** * Queries of an [AssetsDefinition] *)

(** C8.  [asset_key] returns the sole output key of a definition with
    exactly one output key, and fails the check (the error that the
    specification calls [AmbiguousKeyError]) on a definition with more
    than one. *)
Theorem asset_key_of_one_and_of_many `{Collaborators} (d : AssetsDefinition) :
  (dict_len (output_defs_by_asset_key d) = 1 ->
   exists k, asset_keys d = [k] /\ asset_key d = Ok k)
  /\ (1 < dict_len (output_defs_by_asset_key d) ->
      asset_key d
      = Raise (CheckError
                 ("Tried to retrieve asset key from an assets definition with multiple asset keys: "
                  ++ String.concat ", " (map to_string (asset_keys d))))).
Proof.
  unfold asset_key, asset_keys, output_defs_by_asset_key, dict_len. split.
  - intros Hlen. destruct (_output_defs_by_asset_key d) as [| [k def] [| second rest]];
      simpl in Hlen; try discriminate.
    exists k. split; reflexivity.
  - intros Hlen. unfold check_invariant.
    destruct (Nat.eqb_spec (List.length (_output_defs_by_asset_key d)) 1) as [e | n].
    + lia.
    + reflexivity.
Qed.

(** A definition with the output [result], and one with the outputs [a] and [b]. *)
Lemma asset_key_of_one_and_of_many_witness :
  (exists k,
      asset_keys (mk_AssetsDefinition (sample_op [] ["result"]) []
                    [(key ["result"], mk_OutputDefinition "result" plain_out)] None [])
      = [k]
      /\ asset_key (mk_AssetsDefinition (sample_op [] ["result"]) []
                      [(key ["result"], mk_OutputDefinition "result" plain_out)] None [])
         = Ok k)
  /\ asset_key (mk_AssetsDefinition (sample_op [] ["a"; "b"]) []
                  [(key ["a"], mk_OutputDefinition "a" plain_out);
                   (key ["b"], mk_OutputDefinition "b" plain_out)] None [])
     = Raise (CheckError
                "Tried to retrieve asset key from an assets definition with multiple asset keys: a, b").
Proof.
  split.
  - apply (proj1 (@asset_key_of_one_and_of_many reference_collaborators
                    (mk_AssetsDefinition (sample_op [] ["result"]) []
                       [(key ["result"], mk_OutputDefinition "result" plain_out)] None []))).
    reflexivity.
  - apply (proj2 (@asset_key_of_one_and_of_many reference_collaborators
                    (mk_AssetsDefinition (sample_op [] ["a"; "b"]) []
                       [(key ["a"], mk_OutputDefinition "a" plain_out);
                        (key ["b"], mk_OutputDefinition "b" plain_out)] None []))).
    simpl. lia.
Defined.

(** C9.  [get_partition_mapping] fails the check (the error that the
    specification calls [NotPartitionedError]) for every key exactly when
    the definition has no partitioning scheme; with a scheme it returns the
    explicit mapping stored for the key when there is one and the scheme's
    default mapping otherwise. *)
Theorem get_partition_mapping_spec `{Collaborators}
    (d : AssetsDefinition) (in_asset_key : AssetKey) :
  get_partition_mapping d in_asset_key
  = match partitions_def d with
    | None => Raise (CheckError "Asset is not partitioned")
    | Some scheme =>
        Ok (match dict_get (_partition_mappings d) in_asset_key with
            | Some mapping => mapping
            | None => get_default_partition_mapping scheme
            end)
    end
  /\ ((exists e, get_partition_mapping d in_asset_key = Raise e)
      <-> partitions_def d = None).
Proof.
  unfold get_partition_mapping, partitions_def, check_failed, dict_get_default.
  destruct (_partitions_def d) as [scheme |]; split; try reflexivity.
  - split; [intros [e He]; discriminate | discriminate].
  - split; [reflexivity | intros _; eauto].
Qed.

(** * Construction of an [AssetsDefinition] *)

Section DictKeysFacts.
Context {K V W : Type} `{EqDec K}.

(** The keys after an assignment depend on the keys before it only. *)
Lemma dict_set_keys_congr (a : dict K V) (b : dict K W) k v w :
  dict_keys a = dict_keys b ->
  dict_keys (dict_set a k v) = dict_keys (dict_set b k w).
Proof.
  intros Hkeys. destruct (in_dec eq_dec k (dict_keys a)) as [Hin | Hnot].
  - rewrite !dict_set_present; congruence.
  - rewrite !dict_set_absent by congruence. unfold dict_keys in *.
    rewrite !map_app. simpl. congruence.
Qed.
End DictKeysFacts.

(** Looking up the ports of a computation by local name, as [__init__]
    does for the inputs and for the outputs. *)
Section PortLookup.
Context {D : Type}.
Variables (port_name : D -> string) (defs : list D).

Let ports : dict string D := dict_of_items (map (fun d => (port_name d, d)) defs).

Let port_entry (item : AssetKey * string) : Result (AssetKey * D) :=
  d <- dict_subscript ports (snd item) ;; Ok (fst item, d).

Lemma ports_keys n : In n (dict_keys ports) <-> In n (map port_name defs).
Proof.
  unfold ports. rewrite dict_of_items_map. simpl.
  rewrite (assign_all_keys_In port_name (fun d => d)). simpl. tauto.
Qed.

Lemma ports_named n def : dict_get ports n = Some def -> port_name def = n.
Proof.
  intros Hget. pose proof (dict_get_Some_key _ _ Hget) as Hkey.
  apply ports_keys in Hkey.
  destruct (assign_all_get_last port_name (fun d => d) defs [] n Hkey)
    as [q [_ [Hname Hlast]]].
  unfold ports in Hget. rewrite dict_of_items_map in Hget. simpl in Hget.
  congruence.
Qed.

Lemma ports_declared n :
  In n (map port_name defs) ->
  exists def, dict_get ports n = Some def /\ port_name def = n.
Proof.
  intros Hin. apply ports_keys, dict_In_key in Hin. destruct Hin as [def Hget].
  exists def. split; [assumption | now apply ports_named].
Qed.

(** The dict that the comprehension returns is well formed and holds
    ports of the computation under their own names. *)
Lemma port_comprehension_sound items res :
  dict_comprehension port_entry items [] = Ok res ->
  dict_wf res
  /\ forall k def, In (k, def) res -> dict_get ports (port_name def) = Some def.
Proof.
  apply (dict_comprehension_invariant
           (fun a => dict_wf a
                     /\ forall k def, In (k, def) a ->
                                      dict_get ports (port_name def) = Some def)).
  - split; [constructor | intros k def []].
  - intros a item kv [Hwf Hports] _ Hentry. unfold port_entry, dict_subscript in Hentry.
    destruct (dict_get ports (snd item)) as [def |] eqn:Hget; simpl in Hentry; [| discriminate].
    injection Hentry as <-. simpl. split; [now apply dict_set_wf |].
    intros k' def' Hin. apply dict_set_In in Hin. destruct Hin as [Heq | Hin].
    + injection Heq as -> ->. now rewrite (ports_named _ Hget).
    + now apply (Hports k').
Qed.

(** Its keys are those of the mapping it was built from. *)
Lemma port_comprehension_keys items res :
  dict_comprehension port_entry items [] = Ok res ->
  dict_keys res = dict_keys (dict_of_items items).
Proof.
  unfold dict_of_items.
  assert (Hgen : forall (acc : dict AssetKey D) (acc' : dict AssetKey string),
             dict_keys acc = dict_keys acc' ->
             dict_comprehension port_entry items acc = Ok res ->
             dict_keys res
             = dict_keys (fold_left (fun d kv => dict_set d (fst kv) (snd kv)) items acc')).
  { induction items as [| item rest IH]; intros acc acc' Hkeys; simpl.
    - intros [= <-]. assumption.
    - destruct (port_entry item) as [kv |] eqn:Hentry; simpl; [| discriminate].
      apply IH. unfold port_entry in Hentry.
      destruct (dict_subscript ports (snd item)); simpl in Hentry; [| discriminate].
      injection Hentry as <-. simpl. now apply dict_set_keys_congr. }
  now apply Hgen.
Qed.

(** It raises nothing when every local name is a declared port, and only
    [KeyError] on an undeclared one otherwise. *)
Lemma port_comprehension_succeeds items acc :
  (forall k n, In (k, n) items -> In n (map port_name defs)) ->
  exists res, dict_comprehension port_entry items acc = Ok res.
Proof.
  revert acc. induction items as [| [k n] rest IH]; intros acc Hdecl; simpl.
  - now exists acc.
  - destruct (ports_declared n) as [def [Hget _]]; [apply (Hdecl k); now left |].
    unfold port_entry at 1, dict_subscript. simpl. rewrite Hget. simpl.
    apply IH. intros k' n' Hin. apply (Hdecl k'). now right.
Qed.

Lemma port_comprehension_raises items acc e :
  dict_comprehension port_entry items acc = Raise e ->
  exists k n, In (k, n) items /\ ~ In n (map port_name defs) /\ e = KeyError n.
Proof.
  intros Hraise. apply dict_comprehension_raises in Hraise.
  destruct Hraise as [[k n] [Hin Hentry]]. exists k, n.
  unfold port_entry, dict_subscript in Hentry. simpl in Hentry.
  destruct (dict_get ports n) as [def |] eqn:Hget; simpl in Hentry; [discriminate |].
  injection Hentry as <-. split; [assumption | split; [| reflexivity]].
  rewrite <- ports_keys. now apply dict_get_None_iff.
Qed.
End PortLookup.

Section Construction.
Context `{Collaborators}.

(** What a successful [__init__] has stored. *)
Lemma init_returns ins outs op pd pm d :
  AssetsDefinition_init ins outs op pd pm = Ok d ->
  _op d = op /\ _partitions_def d = pd /\ _partition_mappings d = seq_or pm []
  /\ dict_comprehension
       (fun item => def <- dict_subscript (input_dict op) (snd item) ;; Ok (fst item, def))
       ins [] = Ok (_input_defs_by_asset_key d)
  /\ dict_comprehension
       (fun item => def <- dict_subscript (output_dict op) (snd item) ;; Ok (fst item, def))
       outs [] = Ok (_output_defs_by_asset_key d).
Proof.
  unfold AssetsDefinition_init, dict_items.
  destruct (dict_comprehension _ ins []) as [input_defs_by_key |]; simpl; [| discriminate].
  destruct (dict_comprehension _ outs []) as [output_defs_by_key |]; simpl; [| discriminate].
  intros [= <-]. simpl. repeat split; reflexivity.
Qed.

(** [__init__] raises only [KeyError], on a local name that the
    computation does not declare. *)
Lemma init_raises ins outs op pd pm e :
  AssetsDefinition_init ins outs op pd pm = Raise e ->
  exists n,
    e = KeyError n
    /\ ((exists k, In (k, n) ins) /\ ~ In n (map input_def_name (input_defs op))
        \/ (exists k, In (k, n) outs) /\ ~ In n (map output_def_name (output_defs op))).
Proof.
  unfold AssetsDefinition_init, dict_items.
  destruct (dict_comprehension _ ins []) as [input_defs_by_key | e1] eqn:Hins; simpl.
  - destruct (dict_comprehension _ outs []) as [output_defs_by_key | e2] eqn:Houts;
      simpl; [discriminate |].
    intros [= <-].
    apply (port_comprehension_raises output_def_name (output_defs op)) in Houts.
    destruct Houts as [k [n [Hin [Hnot ->]]]]. exists n. split; [reflexivity |].
    right. split; [now exists k | assumption].
  - intros [= <-].
    apply (port_comprehension_raises input_def_name (input_defs op)) in Hins.
    destruct Hins as [k [n [Hin [Hnot ->]]]]. exists n. split; [reflexivity |].
    left. split; [now exists k | assumption].
Qed.

(** [__init__] succeeds when every local name is a declared port. *)
Lemma init_succeeds ins outs op pd pm :
  (forall k n, In (k, n) ins -> In n (map input_def_name (input_defs op))) ->
  (forall k n, In (k, n) outs -> In n (map output_def_name (output_defs op))) ->
  exists d, AssetsDefinition_init ins outs op pd pm = Ok d.
Proof.
  intros Hins Houts. unfold AssetsDefinition_init, dict_items.
  destruct (port_comprehension_succeeds input_def_name (input_defs op) ins [] Hins)
    as [input_defs_by_key Hi].
  destruct (port_comprehension_succeeds output_def_name (output_defs op) outs [] Houts)
    as [output_defs_by_key Ho].
  unfold input_dict, output_dict. rewrite Hi. simpl. rewrite Ho. simpl. eauto.
Qed.

(** The state of a constructed definition: well-formed dicts that hold
    ports of its computation under their own names. *)
Lemma constructed_inputs d :
  constructed d ->
  dict_wf (_input_defs_by_asset_key d)
  /\ forall k def, In (k, def) (_input_defs_by_asset_key d) ->
                   dict_get (input_dict (_op d)) (input_def_name def) = Some def.
Proof.
  intros [ins [outs [op [pd [pm Hinit]]]]].
  apply init_returns in Hinit. destruct Hinit as [-> [_ [_ [Hins _]]]].
  now apply (port_comprehension_sound input_def_name (input_defs op)) in Hins.
Qed.

Lemma constructed_outputs d :
  constructed d ->
  dict_wf (_output_defs_by_asset_key d)
  /\ forall k def, In (k, def) (_output_defs_by_asset_key d) ->
                   dict_get (output_dict (_op d)) (output_def_name def) = Some def.
Proof.
  intros [ins [outs [op [pd [pm Hinit]]]]].
  apply init_returns in Hinit. destruct Hinit as [-> [_ [_ [_ Houts]]]].
  now apply (port_comprehension_sound output_def_name (output_defs op)) in Houts.
Qed.
End Construction.

(** C6, as stated, fails: constructing a definition with an empty outputs
    mapping succeeds and returns a definition with no output key. *)
Lemma empty_outputs_are_accepted :
  AssetsDefinition_init [] [] (sample_op [] ["result"]) None None
  = Ok (mk_AssetsDefinition (sample_op [] ["result"]) [] [] None [])
  /\ asset_keys (mk_AssetsDefinition (sample_op [] ["result"]) [] [] None []) = [].
Proof.
  split; reflexivity.
Qed.

(** C6, amended.  [__init__] does not require an output: the output keys of
    a constructed definition are the keys of the outputs mapping it was
    given, so an empty outputs mapping, with input names that the
    computation declares, gives a definition with no output key.
    Construction is all or nothing: it returns the definition or raises
    [KeyError] on a local name that the computation does not declare. *)
Theorem construction_keeps_the_given_output_keys `{Collaborators}
    (ins : dict AssetKey string) (op : OpDefinition)
    (pd : option PartitionsDefinition) (pm : option (dict AssetKey PartitionMapping)) :
  (forall k n, In (k, n) ins -> In n (map input_def_name (input_defs op))) ->
  (exists d, AssetsDefinition_init ins [] op pd pm = Ok d /\ asset_keys d = [])
  /\ (forall outs d,
         AssetsDefinition_init ins outs op pd pm = Ok d ->
         asset_keys d = dict_keys (dict_of_items outs))
  /\ (forall outs e,
         AssetsDefinition_init ins outs op pd pm = Raise e ->
         exists k n,
           In (k, n) outs /\ ~ In n (map output_def_name (output_defs op))
           /\ e = KeyError n).
Proof.
  intros Hins.
  assert (Hkeys : forall outs d,
             AssetsDefinition_init ins outs op pd pm = Ok d ->
             asset_keys d = dict_keys (dict_of_items outs)).
  { intros outs d Hinit. apply init_returns in Hinit.
    destruct Hinit as [_ [_ [_ [_ Houts]]]]. unfold asset_keys.
    now apply (port_comprehension_keys output_def_name (output_defs op)) in Houts. }
  split; [| split].
  - destruct (init_succeeds ins [] op pd pm Hins) as [d Hinit]; [intros k n [] |].
    exists d. split; [assumption |]. now rewrite (Hkeys [] d Hinit).
  - exact Hkeys.
  - intros outs e Hraise. apply init_raises in Hraise.
    destruct Hraise as [n [-> [[[k Hin] Hnot] | [[k Hin] Hnot]]]].
    + exfalso. apply Hnot. now apply (Hins k).
    + exists k, n. auto.
Qed.

(** A computation with the input [a], constructed with that input. *)
Lemma construction_keeps_the_given_output_keys_witness :
  (exists d,
      AssetsDefinition_init [(key ["a"], "a")] [] (sample_op ["a"] ["result"]) None None
      = Ok d /\ asset_keys d = [])
  /\ (forall outs d,
         AssetsDefinition_init [(key ["a"], "a")] outs (sample_op ["a"] ["result"]) None None
         = Ok d ->
         asset_keys d = dict_keys (dict_of_items outs))
  /\ (forall outs e,
         AssetsDefinition_init [(key ["a"], "a")] outs (sample_op ["a"] ["result"]) None None
         = Raise e ->
         exists k n,
           In (k, n) outs
           /\ ~ In n (map output_def_name (output_defs (sample_op ["a"] ["result"])))
           /\ e = KeyError n).
Proof.
  apply (@construction_keeps_the_given_output_keys reference_collaborators
           [(key ["a"], "a")] (sample_op ["a"] ["result"]) None None).
  intros k n [[= <- <-] | []]. simpl. now left.
Defined.

(** * Key substitution ([with_replaced_asset_keys]) *)

Section ComprehensionOverMap.
Context {A B K V : Type} `{EqDec K}.

Lemma dict_comprehension_map (entry : B -> Result (K * V)) (h : A -> B) xs acc :
  dict_comprehension entry (map h xs) acc
  = dict_comprehension (fun x => entry (h x)) xs acc.
Proof.
  revert acc. induction xs as [| x rest IH]; intros acc; simpl; [reflexivity |].
  destruct (entry (h x)); simpl; [apply IH | reflexivity].
Qed.
End ComprehensionOverMap.

(** One side of the substitution: the keys of [old] are replaced, and each
    local name is looked up among the ports [defs] of the substituted
    computation. *)
Section SubstitutedPorts.
Context {D : Type}.
Variables (port_name : D -> string) (defs : list D).
Variables (replacements : dict AssetKey AssetKey) (old : dict AssetKey D).

Let ports : dict string D := dict_of_items (map (fun d => (port_name d, d)) defs).

Let lookup (def : D) : D :=
  match dict_get ports (port_name def) with
  | Some def' => def'
  | None => def
  end.

Hypothesis no_collision : NoDup (map (substituted replacements) (dict_keys old)).
Hypothesis declared :
  forall k def, In (k, def) old -> In (port_name def) (map port_name defs).

Lemma substituted_port_comprehension :
  dict_comprehension
    (fun item => def <- dict_subscript ports (snd item) ;; Ok (fst item, def))
    (dict_of_items
       (map (fun item => (substituted replacements (fst item), port_name (snd item)))
            old))
    []
  = Ok (map (fun item => (substituted replacements (fst item), lookup (snd item))) old).
Proof.
  rewrite dict_of_items_distinct
    by (rewrite map_map; simpl; unfold dict_keys in no_collision;
        now rewrite map_map in no_collision).
  rewrite dict_comprehension_map.
  rewrite (dict_comprehension_total
             (fun item => substituted replacements (fst item))
             (fun item => lookup (snd item))).
  - f_equal.
    rewrite (assign_all_fresh (fun item => substituted replacements (fst item))
               (fun item => lookup (snd item))); [reflexivity | | simpl; auto].
    unfold dict_keys in no_collision. now rewrite map_map in no_collision.
  - intros [k def] Hin. simpl. unfold lookup, dict_subscript.
    destruct (ports_declared port_name defs (port_name def)) as [def' [Hget _]].
    + now apply (declared k).
    + fold ports in Hget. now rewrite Hget.
Qed.

Lemma substituted_lookup_named def :
  port_name (lookup def) = port_name def.
Proof.
  unfold lookup. destruct (dict_get ports (port_name def)) as [def' |] eqn:Hget.
  - now apply (ports_named port_name defs).
  - reflexivity.
Qed.

Lemma substituted_entry k def :
  dict_get old k = Some def ->
  dict_get (map (fun item => (substituted replacements (fst item), lookup (snd item))) old)
    (substituted replacements k)
  = Some (lookup def).
Proof.
  intros Hget. apply dict_wf_In_get.
  - unfold dict_wf, dict_keys. rewrite map_map. simpl.
    unfold dict_keys in no_collision. now rewrite map_map in no_collision.
  - apply dict_get_In in Hget.
    now apply (in_map (fun item => (substituted replacements (fst item), lookup (snd item))))
      in Hget.
Qed.
End SubstitutedPorts.

Section KeySubstitution.
Context `{Collaborators}.

Lemma init_from_parts ins outs op pd pm input_defs_by_key output_defs_by_key :
  dict_comprehension
    (fun item => def <- dict_subscript (input_dict op) (snd item) ;; Ok (fst item, def))
    ins [] = Ok input_defs_by_key ->
  dict_comprehension
    (fun item => def <- dict_subscript (output_dict op) (snd item) ;; Ok (fst item, def))
    outs [] = Ok output_defs_by_key ->
  AssetsDefinition_init ins outs op pd pm
  = Ok (mk_AssetsDefinition op input_defs_by_key output_defs_by_key pd (seq_or pm [])).
Proof.
  intros Hins Houts. unfold AssetsDefinition_init, dict_items.
  rewrite Hins. simpl. rewrite Houts. reflexivity.
Qed.

Lemma seq_or_some {A} (l : list A) : seq_or (Some l) [] = l.
Proof.
  now destruct l.
Qed.

Lemma substituted_nothing (k : AssetKey) : substituted [] k = k.
Proof.
  reflexivity.
Qed.

(** The local names of a constructed definition are ports of its
    computation. *)
Lemma constructed_input_names d k def :
  constructed d -> In (k, def) (_input_defs_by_asset_key d) ->
  In (input_def_name def) (map input_def_name (input_defs (_op d))).
Proof.
  intros Hd Hin. destruct (constructed_inputs Hd) as [_ Hports].
  apply (ports_keys input_def_name). eapply dict_get_Some_key. apply (Hports k def Hin).
Qed.

Lemma constructed_output_names d k def :
  constructed d -> In (k, def) (_output_defs_by_asset_key d) ->
  In (output_def_name def) (map output_def_name (output_defs (_op d))).
Proof.
  intros Hd Hin. destruct (constructed_outputs Hd) as [_ Hports].
  apply (ports_keys output_def_name). eapply dict_get_Some_key. apply (Hports k def Hin).
Qed.

(** Without collisions, [with_replaced_asset_keys] returns the definition
    whose dicts are the old ones with each key substituted and each port
    looked up by name in the substituted computation. *)
Lemma with_replaced_asset_keys_returns d o i :
  constructed d ->
  op_substitution_keeps_ports ->
  NoDup (map (substituted o) (asset_keys d)) ->
  NoDup (map (substituted i) (dependency_asset_keys d)) ->
  with_replaced_asset_keys d o i
  = Ok (mk_AssetsDefinition
          (op_with_replaced_asset_keys (_op d) o i)
          (map (fun item =>
                  (substituted i (fst item),
                   match dict_get (input_dict (op_with_replaced_asset_keys (_op d) o i))
                           (input_def_name (snd item)) with
                   | Some def' => def'
                   | None => snd item
                   end))
               (_input_defs_by_asset_key d))
          (map (fun item =>
                  (substituted o (fst item),
                   match dict_get (output_dict (op_with_replaced_asset_keys (_op d) o i))
                           (output_def_name (snd item)) with
                   | Some def' => def'
                   | None => snd item
                   end))
               (_output_defs_by_asset_key d))
          (_partitions_def d) (_partition_mappings d)).
Proof.
  intros Hd Hports Ho Hi. unfold with_replaced_asset_keys.
  destruct (Hports (_op d) o i) as [Hin_ports Hout_ports].
  rewrite <- (seq_or_some (_partition_mappings d)) at 2.
  apply init_from_parts.
  - apply (substituted_port_comprehension input_def_name
             (input_defs (op_with_replaced_asset_keys (_op d) o i)) i
             (_input_defs_by_asset_key d) Hi).
    intros k def Hin. apply Hin_ports. now apply (constructed_input_names k def Hd).
  - apply (substituted_port_comprehension output_def_name
             (output_defs (op_with_replaced_asset_keys (_op d) o i)) o
             (_output_defs_by_asset_key d) Ho).
    intros k def Hin. apply Hout_ports. now apply (constructed_output_names k def Hd).
Qed.
End KeySubstitution.

(** C3, as stated, fails: where the output table sends the key [k1] to the
    key [k2] that the definition also has, the result holds [k2] once, with
    the local port name [b] of the old [k2]; the local port name [a] of
    [k1] is not carried over. *)
Lemma colliding_substitution_drops_a_port :
  AssetsDefinition_init [] [(key ["k1"], "a"); (key ["k2"], "b")]
    (sample_op [] ["a"; "b"]) None None
  = Ok (mk_AssetsDefinition (sample_op [] ["a"; "b"]) []
          [(key ["k1"], mk_OutputDefinition "a" plain_out);
           (key ["k2"], mk_OutputDefinition "b" plain_out)] None [])
  /\ with_replaced_asset_keys
       (mk_AssetsDefinition (sample_op [] ["a"; "b"]) []
          [(key ["k1"], mk_OutputDefinition "a" plain_out);
           (key ["k2"], mk_OutputDefinition "b" plain_out)] None [])
       [(key ["k1"], key ["k2"])] []
     = Ok (mk_AssetsDefinition (sample_op [] ["a"; "b"]) []
             [(key ["k2"], mk_OutputDefinition "b" plain_out)] None [])
  /\ substituted [(key ["k1"], key ["k2"])] (key ["k1"]) = key ["k2"]
  /\ ~ (exists def',
          dict_get [(key ["k2"], mk_OutputDefinition "b" plain_out)]
            (substituted [(key ["k1"], key ["k2"])] (key ["k1"])) = Some def'
          /\ output_def_name def' = "a").
Proof.
  split; [reflexivity | split; [reflexivity | split; [reflexivity |]]].
  intros [def' [Hget Hname]]. vm_compute in Hget. injection Hget as <-. discriminate.
Qed.

(** C3, amended.  For a constructed definition [d] whose computation keeps
    its ports under substitution, and tables that send no two keys of [d]
    to the same key, [with_replaced_asset_keys] returns a new definition
    in which each output key present in the output table is replaced by
    its mapped value and each absent one is kept, symmetrically for the
    input keys, each key keeping its local port name; the partitioning and
    the partition mappings are passed on as they are.  With both tables
    empty, and a computation that substituting nothing leaves as it is,
    the result equals [d]. *)
Theorem with_replaced_asset_keys_without_collisions `{Collaborators}
    (d : AssetsDefinition) :
  constructed d ->
  (op_substitution_keeps_ports ->
   forall o i,
     NoDup (map (substituted o) (asset_keys d)) ->
     NoDup (map (substituted i) (dependency_asset_keys d)) ->
     exists d',
       with_replaced_asset_keys d o i = Ok d'
       /\ asset_keys d' = map (substituted o) (asset_keys d)
       /\ dependency_asset_keys d' = map (substituted i) (dependency_asset_keys d)
       /\ (forall k def,
              dict_get (output_defs_by_asset_key d) k = Some def ->
              exists def',
                dict_get (output_defs_by_asset_key d') (substituted o k) = Some def'
                /\ output_def_name def' = output_def_name def)
       /\ (forall k def,
              dict_get (input_defs_by_asset_key d) k = Some def ->
              exists def',
                dict_get (input_defs_by_asset_key d') (substituted i k) = Some def'
                /\ input_def_name def' = input_def_name def)
       /\ op d' = op_with_replaced_asset_keys (op d) o i
       /\ partitions_def d' = partitions_def d
       /\ _partition_mappings d' = _partition_mappings d)
  /\ (op_substitution_empty_is_identity -> with_replaced_asset_keys d [] [] = Ok d).
Proof.
  intros Hd. split.
  - intros Hports o i Ho Hi.
    eexists. split; [now apply with_replaced_asset_keys_returns |].
    unfold asset_keys, dependency_asset_keys, output_defs_by_asset_key,
      input_defs_by_asset_key, op, partitions_def, dict_keys. simpl.
    rewrite !map_map. simpl.
    split; [reflexivity | split; [reflexivity |]].
    split; [| split; [| repeat split; reflexivity]].
    + intros k def Hget. eexists. split.
      * apply (substituted_entry output_def_name
                 (output_defs (op_with_replaced_asset_keys (_op d) o i)) o
                 (_output_defs_by_asset_key d) Ho k Hget).
      * apply (substituted_lookup_named output_def_name).
    + intros k def Hget. eexists. split.
      * apply (substituted_entry input_def_name
                 (input_defs (op_with_replaced_asset_keys (_op d) o i)) i
                 (_input_defs_by_asset_key d) Hi k Hget).
      * apply (substituted_lookup_named input_def_name).
  - intros Hid.
    destruct (constructed_inputs Hd) as [Hwf_in Hin].
    destruct (constructed_outputs Hd) as [Hwf_out Hout].
    unfold with_replaced_asset_keys, op, partitions_def, input_defs_by_asset_key,
      output_defs_by_asset_key. rewrite Hid.
    assert (Hsame : forall (D : Type) (name : D -> string) (ports : dict string D)
                           (old : dict AssetKey D),
               (forall k def, In (k, def) old -> dict_get ports (name def) = Some def) ->
               map (fun item => (substituted [] (fst item),
                                 match dict_get ports (name (snd item)) with
                                 | Some def' => def'
                                 | None => snd item
                                 end)) old = old).
    { intros D name ports old Hold. rewrite <- (map_id old) at 2.
      apply map_ext_in. intros [k def] Hitem. simpl.
      now rewrite (Hold k def Hitem). }
    rewrite (init_from_parts _ _ _ _ _ (input_defs_by_key := _input_defs_by_asset_key d)
               (output_defs_by_key := _output_defs_by_asset_key d)).
    + destruct d as [op_d ins_d outs_d pd_d pm_d]. simpl. now destruct pm_d.
    + rewrite <- (Hsame _ input_def_name (input_dict (_op d)) _ Hin) at 2.
      apply (substituted_port_comprehension input_def_name (input_defs (_op d)) []
               (_input_defs_by_asset_key d)).
      * unfold dict_wf in Hwf_in. rewrite <- (map_id (dict_keys _)) in Hwf_in.
        exact Hwf_in.
      * intros k def Hitem. now apply (constructed_input_names k def Hd).
    + rewrite <- (Hsame _ output_def_name (output_dict (_op d)) _ Hout) at 2.
      apply (substituted_port_comprehension output_def_name (output_defs (_op d)) []
               (_output_defs_by_asset_key d)).
      * unfold dict_wf in Hwf_out. rewrite <- (map_id (dict_keys _)) in Hwf_out.
        exact Hwf_out.
      * intros k def Hitem. now apply (constructed_output_names k def Hd).
Qed.

(** The reference instance satisfies the assumptions on the collaborators. *)
Lemma reference_keeps_ports : @op_substitution_keeps_ports reference_collaborators.
Proof.
  intros op o i. simpl. rewrite !map_map. simpl. split; apply incl_refl.
Qed.

Lemma reference_empty_is_identity :
  @op_substitution_empty_is_identity reference_collaborators.
Proof.
  intros [name fn ins outs]. simpl. f_equal.
  - rewrite <- (map_id ins) at 2. apply map_ext.
    intros [n [ty md rm [k |]]]; reflexivity.
  - rewrite <- (map_id outs) at 2. apply map_ext.
    intros [n [ty io md [k |]]]; reflexivity.
Qed.

Lemma partitioned_definition_constructed : constructed partitioned_definition.
Proof.
  exists [(key ["a"], "a")], [(key ["result"], "result")], (sample_op ["a"] ["result"]),
    (Some "daily"), (Some [(key ["a"], "identity")]).
  reflexivity.
Qed.

(** Both keys of [partitioned_definition] moved under the namespace [ns], and the empty substitution. *)
Lemma with_replaced_asset_keys_without_collisions_witness :
  (exists d',
      with_replaced_asset_keys partitioned_definition
        [(key ["result"], key ["ns"; "result"])] [(key ["a"], key ["ns"; "a"])]
      = Ok d'
      /\ asset_keys d' = [key ["ns"; "result"]]
      /\ dependency_asset_keys d' = [key ["ns"; "a"]])
  /\ with_replaced_asset_keys partitioned_definition [] [] = Ok partitioned_definition.
Proof.
  destruct (@with_replaced_asset_keys_without_collisions reference_collaborators
              partitioned_definition partitioned_definition_constructed)
    as [Hsubst Hid].
  split.
  - destruct (Hsubst reference_keeps_ports
                [(key ["result"], key ["ns"; "result"])] [(key ["a"], key ["ns"; "a"])])
      as [d' [Hrun [Hout [Hin _]]]].
    + simpl. constructor; [intros [] | constructor].
    + simpl. constructor; [intros [] | constructor].
    + exists d'. split; [assumption | split; assumption].
  - apply Hid, reference_empty_is_identity.
Defined.

(** C4, on [with_replaced_asset_keys].  The partition mappings are handed
    to the new definition under their old keys: after the input key [["a"]],
    which has an explicit partition mapping, is substituted by
    [["ns"; "a"]], the keys of the partition mappings are no longer among
    the input keys, and the mapping asked for the new input key is the
    scheme's default instead of the explicit one. *)
Theorem substitution_leaves_partition_mappings_under_old_keys :
  AssetsDefinition_init [(key ["a"], "a")] [(key ["result"], "result")]
    (sample_op ["a"] ["result"]) (Some "daily") (Some [(key ["a"], "identity")])
  = Ok partitioned_definition
  /\ partition_mappings_within_inputs partitioned_definition
  /\ get_partition_mapping partitioned_definition (key ["a"]) = Ok "identity"
  /\ exists d',
       with_replaced_asset_keys partitioned_definition [] [(key ["a"], key ["ns"; "a"])]
       = Ok d'
       /\ dependency_asset_keys d' = [key ["ns"; "a"]]
       /\ dict_keys (_partition_mappings d') = [key ["a"]]
       /\ ~ partition_mappings_within_inputs d'
       /\ get_partition_mapping d' (key ["ns"; "a"]) = Ok "default of daily".
Proof.
  split; [reflexivity |]. split; [intros k Hk; exact Hk |]. split; [reflexivity |].
  eexists. split; [reflexivity |]. split; [reflexivity |]. split; [reflexivity |].
  split; [| reflexivity].
  intros Hincl. destruct (Hincl (key ["a"])) as [Heq | []]; [now left | discriminate].
Qed.

(** * Further properties of the inference *)

Lemma NoDup_map_injective {A B} (f : A -> B) (l : list A) :
  (forall x y, In x l -> In y l -> f x = f y -> x = y) ->
  NoDup l -> NoDup (map f l).
Proof.
  induction l as [| a rest IH]; intros Hinj Hnd; simpl; [constructor |].
  inversion Hnd as [| ? ? Ha Hrest]; subst. constructor.
  - intros Hin. apply in_map_iff in Hin. destruct Hin as [b [Hfb Hb]].
    apply Ha. rewrite <- (Hinj b a); [assumption | now right | now left | assumption].
  - apply IH; [| assumption]. intros x y Hx Hy. apply Hinj; now right.
Qed.

Lemma input_asset_key_plain (n : string) :
  n <> "" -> input_asset_key None [] n = mk_AssetKey [n].
Proof.
  intros Hn. unfold input_asset_key, filter_none, eqb_of. simpl.
  destruct (eq_dec n "") as [e | _]; [contradiction | reflexivity].
Qed.

(** The input parameters of a computation, read off its declared
    parameters: all but the first when the name of the first is on the
    allow-list of [context], and all of them otherwise. *)
Lemma input_param_names_of_declared `{Collaborators} (params inputs : list FnParameter) :
  ((exists first,
       params = first :: inputs
       /\ py_in (param_name first) (get_valid_name_permutations "context") = true)
   \/ (params = inputs
       /\ forall first others,
            params = first :: others ->
            py_in (param_name first) (get_valid_name_permutations "context") = false)) ->
  _get_input_param_names params = map param_name inputs.
Proof.
  intros [[first [-> Hctx]] | [-> Hplain]]; unfold _get_input_param_names.
  - now rewrite Hctx.
  - destruct inputs as [| first others]; [reflexivity |].
    now rewrite (Hplain first others eq_refl).
Qed.

(** With no override, no namespace and no dependency-only key, a
    computation gets exactly one input per input parameter, provided these
    are pairwise distinct, non-empty names: the single-segment key spelled
    like the parameter, mapped to the parameter's name, with empty
    metadata.  The input parameters [inputs] are the declared parameters
    without the first one when its name is on the allow-list of [context],
    and all declared parameters otherwise. *)
Theorem inputs_without_overrides `{Collaborators}
    (fname : string) (params inputs : list FnParameter) :
  set_iter_is_set ->
  ((exists first,
       params = first :: inputs
       /\ py_in (param_name first) (get_valid_name_permutations "context") = true)
   \/ (params = inputs
       /\ forall first others,
            params = first :: others ->
            py_in (param_name first) (get_valid_name_permutations "context") = false)) ->
  NoDup (map param_name inputs) ->
  ~ In "" (map param_name inputs) ->
  exists ins,
    build_asset_ins (mk_PyFunction fname params) None [] None = Ok ins
    /\ Permutation ins
         (map (fun p => (mk_AssetKey [param_name p],
                         (param_name p,
                          mk_In NoValueSentinel (Some []) (Some "root_manager") None)))
              inputs).
Proof.
  intros Hset Hinputs Hnd Hnonempty.
  rewrite build_asset_ins_returns by (intros x []).
  eexists. split; [reflexivity |]. simpl. rewrite app_nil_r.
  rewrite (input_param_names_of_declared Hinputs).
  set (names := map param_name inputs) in *.
  assert (Hperm : Permutation (set_iter names) names).
  { rewrite <- (nodup_fixed_point string_dec Hnd) at 2. apply Hset. }
  assert (Hne : forall n, In n (set_iter names) -> n <> "").
  { intros n Hn ->. apply Hnonempty. eapply Permutation_in; eassumption. }
  unfold ins_of_input_names.
  rewrite (assign_all_fresh (input_asset_key None []) (parameter_entry [])).
  - simpl. rewrite (map_ext_in _
                      (fun n => (mk_AssetKey [n],
                                 (n, mk_In NoValueSentinel (Some []) (Some "root_manager") None)))).
    + rewrite Hperm. unfold names. now rewrite map_map.
    + intros n Hn. now rewrite (input_asset_key_plain (Hne n Hn)).
  - apply NoDup_map_injective.
    + intros x y Hx Hy. rewrite !input_asset_key_plain by auto. now intros [= ->].
    + eapply Permutation_NoDup; [apply Permutation_sym, Hperm | assumption].
  - intros x _ [].
Qed.

(** A computation declaring [(a, b)] gets the inputs [a] and [b]; one
    declaring [(context, a, b)] gets the same two and none for [context]. *)
Lemma inputs_without_overrides_witness :
  (exists ins,
      build_asset_ins (sample_fn ["a"; "b"]) None [] None = Ok ins
      /\ Permutation ins
           [(key ["a"], ("a", mk_In NoValueSentinel (Some []) (Some "root_manager") None));
            (key ["b"], ("b", mk_In NoValueSentinel (Some []) (Some "root_manager") None))])
  /\ (exists ins,
         build_asset_ins (sample_fn ["context"; "a"; "b"]) None [] None = Ok ins
         /\ Permutation ins
              [(key ["a"], ("a", mk_In NoValueSentinel (Some []) (Some "root_manager") None));
               (key ["b"], ("b", mk_In NoValueSentinel (Some []) (Some "root_manager") None))]).
Proof.
  assert (Hset : @set_iter_is_set reference_collaborators).
  { intros l. apply Permutation_refl. }
  assert (Hnd : NoDup (map param_name [mk_FnParameter "a"; mk_FnParameter "b"])).
  { simpl. constructor; [intros [e | []]; discriminate | constructor; [intros [] | constructor]]. }
  assert (Hnonempty : ~ In "" (map param_name [mk_FnParameter "a"; mk_FnParameter "b"])).
  { simpl. intros [e | [e | []]]; discriminate. }
  split.
  - apply (@inputs_without_overrides reference_collaborators "compute"
             [mk_FnParameter "a"; mk_FnParameter "b"]
             [mk_FnParameter "a"; mk_FnParameter "b"] Hset); [| exact Hnd | exact Hnonempty].
    right. split; [reflexivity |]. intros first others [= <- _]. reflexivity.
  - apply (@inputs_without_overrides reference_collaborators "compute"
             [mk_FnParameter "context"; mk_FnParameter "a"; mk_FnParameter "b"]
             [mk_FnParameter "a"; mk_FnParameter "b"] Hset); [| exact Hnd | exact Hnonempty].
    left. exists (mk_FnParameter "context"). split; reflexivity.
Defined.

(** [_infer_asset_key_by_output_name] gives every declared output its
    explicit key when the table has one and the single-segment key spelled
    like the output otherwise, and raises
    [DagsterInvalidDefinitionError] on a table that names an output the
    computation does not declare. *)
Theorem output_keys_are_explicit_or_synthesized
    (op_def : OpDefinition) (asset_key_by_output_name : dict string AssetKey) :
  (incl (dict_keys asset_key_by_output_name) (dict_keys (op_outs op_def)) ->
   exists inferred,
     _infer_asset_key_by_output_name op_def asset_key_by_output_name = Ok inferred
     /\ forall n, In n (dict_keys (op_outs op_def)) ->
                  dict_get inferred n
                  = Some (dict_get_default asset_key_by_output_name n (mk_AssetKey [n])))
  /\ (forall n, In n (dict_keys asset_key_by_output_name) ->
                ~ In n (dict_keys (op_outs op_def)) ->
                exists msg,
                  _infer_asset_key_by_output_name op_def asset_key_by_output_name
                  = Raise (DagsterInvalidDefinitionError msg)).
Proof.
  apply infer_asset_key_by_output_name_spec.
Qed.

(** Outputs [a] and [b] with an explicit key for [b], and an override of the undeclared output [z]. *)
Lemma output_keys_are_explicit_or_synthesized_witness :
  (exists inferred,
      _infer_asset_key_by_output_name (sample_op [] ["a"; "b"]) [("b", key ["ns"; "B"])]
      = Ok inferred
      /\ forall n, In n (dict_keys (op_outs (sample_op [] ["a"; "b"]))) ->
                   dict_get inferred n
                   = Some (dict_get_default [("b", key ["ns"; "B"])] n (mk_AssetKey [n])))
  /\ exists msg,
       _infer_asset_key_by_output_name (sample_op [] ["a"]) [("z", key ["ns"; "Z"])]
       = Raise (DagsterInvalidDefinitionError msg).
Proof.
  split.
  - apply (proj1 (output_keys_are_explicit_or_synthesized
                    (sample_op [] ["a"; "b"]) [("b", key ["ns"; "B"])])).
    intros n [<- | []]. simpl. right. now left.
  - apply (proj2 (output_keys_are_explicit_or_synthesized
                    (sample_op [] ["a"]) [("z", key ["ns"; "Z"])]) "z").
    + simpl. now left.
    + simpl. intros [e | []]. discriminate.
Defined.

(** * Error behaviour of [build_asset_ins] *)

Section FirstFailure.
Context {A : Type}.

(** A loop that raises does so at its first failing iteration. *)
Lemma for_each_first_failure (xs : list A) (body : A -> Result unit) e :
  for_each xs body = Raise e ->
  exists passed x rest,
    xs = passed ++ x :: rest
    /\ (forall y, In y passed -> body y = Ok tt)
    /\ body x = Raise e.
Proof.
  induction xs as [| z more IH]; simpl; [discriminate |].
  destruct (body z) as [[] | e0] eqn:Hz; simpl.
  - intros Hloop. destruct (IH Hloop) as [passed [x [rest [-> [Hpassed Hx]]]]].
    exists (z :: passed), x, rest. split; [reflexivity | split; [| assumption]].
    intros y [<- | Hy]; [assumption | now apply Hpassed].
  - intros [= ->]. exists [], z, more. split; [reflexivity | split; [intros y [] | assumption]].
Qed.
End FirstFailure.

(** The check of the override names decides the outcome of
    [build_asset_ins], and a failure is that of its first failing
    iteration. *)
Lemma build_asset_ins_first_failure `{Collaborators}
    (fn : PyFunction) (asset_namespace : option (list string))
    (asset_ins : dict string AssetIn) (non_argument_deps : option (list AssetKey)) :
  (incl (dict_keys asset_ins) (_get_input_param_names (get_function_params fn))
   <-> exists ins,
         build_asset_ins fn asset_namespace asset_ins non_argument_deps = Ok ins)
  /\ (forall e,
         build_asset_ins fn asset_namespace asset_ins non_argument_deps = Raise e ->
         exists valid bad rest,
           dict_keys asset_ins = valid ++ bad :: rest
           /\ incl valid (_get_input_param_names (get_function_params fn))
           /\ ~ In bad (_get_input_param_names (get_function_params fn))
           /\ e = DagsterInvalidDefinitionError
                    ("Key '" ++ bad
                     ++ "' in provided ins dict does not correspond to any of the names "
                     ++ "of the arguments to the decorated function")).
Proof.
  assert (Hraise : forall e,
             build_asset_ins fn asset_namespace asset_ins non_argument_deps = Raise e ->
             exists valid bad rest,
               dict_keys asset_ins = valid ++ bad :: rest
               /\ incl valid (_get_input_param_names (get_function_params fn))
               /\ ~ In bad (_get_input_param_names (get_function_params fn))
               /\ e = DagsterInvalidDefinitionError
                        ("Key '" ++ bad
                         ++ "' in provided ins dict does not correspond to any of the names "
                         ++ "of the arguments to the decorated function")).
  { intros e. unfold build_asset_ins.
    destruct (for_each (dict_keys asset_ins) _) as [[] | e0] eqn:Hloop; simpl; [discriminate |].
    intros [= ->]. apply for_each_first_failure in Hloop.
    destruct Hloop as [valid [bad [rest [Hkeys [Hvalid Hbad]]]]].
    exists valid, bad, rest. split; [assumption |].
    destruct (py_in bad (_get_input_param_names (get_function_params fn))) eqn:Hpy;
      simpl in Hbad; [discriminate |].
    injection Hbad as <-. split; [| split; [now apply py_in_false_iff | reflexivity]].
    intros y Hy. specialize (Hvalid y Hy). simpl in Hvalid.
    destruct (py_in y (_get_input_param_names (get_function_params fn))) eqn:Hyin;
      simpl in Hvalid; [now apply py_in_true_iff | discriminate]. }
  split; [| exact Hraise]. split.
  - intros Hincl. rewrite build_asset_ins_returns by assumption. eauto.
  - intros [ins Hok] x Hx.
    destruct (in_dec string_dec x (_get_input_param_names (get_function_params fn)))
      as [Hin | Hnot]; [assumption |].
    exfalso. unfold build_asset_ins in Hok.
    destruct (@override_check_raises _ _
                (fun in_key =>
                   ("Key '" ++ in_key ++ "' in provided ins dict does not correspond to any of the names "
                    ++ "of the arguments to the decorated function")%string)
                x Hx Hnot) as [bad [_ [_ Hloop]]].
    rewrite Hloop in Hok. discriminate.
Qed.

(** [build_asset_ins] returns a dict exactly when every override names an
    input parameter; otherwise it raises [DagsterInvalidDefinitionError],
    and the message names the first override, in the order of the table,
    that is not an input parameter.  The input parameters [inputs] are the
    declared parameters without the first one when its name is on the
    allow-list of [context], and all declared parameters otherwise. *)
Theorem build_asset_ins_fails_on_the_first_bad_override `{Collaborators}
    (fname : string) (params inputs : list FnParameter)
    (asset_namespace : option (list string))
    (asset_ins : dict string AssetIn) (non_argument_deps : option (list AssetKey)) :
  ((exists first,
       params = first :: inputs
       /\ py_in (param_name first) (get_valid_name_permutations "context") = true)
   \/ (params = inputs
       /\ forall first others,
            params = first :: others ->
            py_in (param_name first) (get_valid_name_permutations "context") = false)) ->
  (incl (dict_keys asset_ins) (map param_name inputs)
   <-> exists ins,
         build_asset_ins (mk_PyFunction fname params)
           asset_namespace asset_ins non_argument_deps = Ok ins)
  /\ (forall e,
         build_asset_ins (mk_PyFunction fname params)
           asset_namespace asset_ins non_argument_deps = Raise e ->
         exists valid bad rest,
           dict_keys asset_ins = valid ++ bad :: rest
           /\ incl valid (map param_name inputs)
           /\ ~ In bad (map param_name inputs)
           /\ e = DagsterInvalidDefinitionError
                    ("Key '" ++ bad
                     ++ "' in provided ins dict does not correspond to any of the names "
                     ++ "of the arguments to the decorated function")).
Proof.
  intros Hinputs.
  rewrite <- (input_param_names_of_declared Hinputs).
  apply (build_asset_ins_first_failure (mk_PyFunction fname params)).
Qed.

(** A computation declaring [(context, a, b)]: an override for the input
    parameter [a] is accepted; with overrides for [a], [z] and [context], in
    this order, no dict is returned and the only error that can be raised
    names [z], the first override that is not an input parameter. *)
Lemma build_asset_ins_fails_on_the_first_bad_override_witness :
  (exists ins,
      build_asset_ins (sample_fn ["context"; "a"; "b"]) None
        [("a", mk_AssetIn None None None)] None = Ok ins)
  /\ ~ (exists ins,
           build_asset_ins (sample_fn ["context"; "a"; "b"]) None
             [("a", mk_AssetIn None None None); ("z", mk_AssetIn None None None);
              ("context", mk_AssetIn None None None)] None = Ok ins)
  /\ (forall e,
         build_asset_ins (sample_fn ["context"; "a"; "b"]) None
           [("a", mk_AssetIn None None None); ("z", mk_AssetIn None None None);
            ("context", mk_AssetIn None None None)] None = Raise e ->
         e = DagsterInvalidDefinitionError
               ("Key 'z' in provided ins dict does not correspond to any of the names "
                ++ "of the arguments to the decorated function")).
Proof.
  assert (Hinputs :
            (exists first,
                [mk_FnParameter "context"; mk_FnParameter "a"; mk_FnParameter "b"]
                = first :: [mk_FnParameter "a"; mk_FnParameter "b"]
                /\ py_in (param_name first)
                     (@get_valid_name_permutations reference_collaborators "context") = true)
            \/ ([mk_FnParameter "context"; mk_FnParameter "a"; mk_FnParameter "b"]
                = [mk_FnParameter "a"; mk_FnParameter "b"]
                /\ forall first others,
                     [mk_FnParameter "context"; mk_FnParameter "a"; mk_FnParameter "b"]
                     = first :: others ->
                     py_in (param_name first)
                       (@get_valid_name_permutations reference_collaborators "context") = false)).
  { left. exists (mk_FnParameter "context"). split; reflexivity. }
  split; [| split].
  - apply (proj1 (@build_asset_ins_fails_on_the_first_bad_override reference_collaborators
                    "compute" _ _ None [("a", mk_AssetIn None None None)] None Hinputs)).
    intros x [<- | []]. simpl. now left.
  - intros Hok.
    apply (proj1 (@build_asset_ins_fails_on_the_first_bad_override reference_collaborators
                    "compute" _ _ None
                    [("a", mk_AssetIn None None None); ("z", mk_AssetIn None None None);
                     ("context", mk_AssetIn None None None)] None Hinputs)) in Hok.
    destruct (Hok "z") as [e | [e | []]]; [simpl; right; now left | discriminate | discriminate].
  - intros e Hraise.
    apply (proj2 (@build_asset_ins_fails_on_the_first_bad_override reference_collaborators
                    "compute" _ _ None
                    [("a", mk_AssetIn None None None); ("z", mk_AssetIn None None None);
                     ("context", mk_AssetIn None None None)] None Hinputs)) in Hraise.
    destruct Hraise as [valid [bad [rest [Hkeys [Hvalid [Hbad ->]]]]]].
    simpl in Hkeys, Hvalid, Hbad.
    destruct valid as [| v1 valid]; simpl in Hkeys.
    { injection Hkeys as <- _. exfalso. apply Hbad. now left. }
    injection Hkeys as <- Hkeys.
    destruct valid as [| v2 valid]; simpl in Hkeys.
    { injection Hkeys as <- _. reflexivity. }
    injection Hkeys as <- _. exfalso.
    destruct (Hvalid "z") as [e | [e | []]]; [right; now left | discriminate | discriminate].
Defined.

(** An override for the leading context parameter is rejected like an
    override for an undeclared name: the parameter is declared, but it is
    stripped before the override names are checked. *)
Theorem override_of_the_context_parameter_fails `{Collaborators}
    (fname : string) (first : FnParameter) (others : list FnParameter)
    (asset_namespace : option (list string)) (asset_ins : dict string AssetIn)
    (non_argument_deps : option (list AssetKey)) :
  py_in (param_name first) (get_valid_name_permutations "context") = true ->
  ~ In (param_name first) (map param_name others) ->
  In (param_name first) (dict_keys asset_ins) ->
  exists msg,
    build_asset_ins (mk_PyFunction fname (first :: others))
      asset_namespace asset_ins non_argument_deps
    = Raise (DagsterInvalidDefinitionError msg).
Proof.
  intros Hcontext Hdistinct Hoverride. unfold build_asset_ins.
  assert (Hnames : _get_input_param_names
                     (get_function_params (mk_PyFunction fname (first :: others)))
                   = map param_name others).
  { unfold _get_input_param_names, get_function_params. simpl. now rewrite Hcontext. }
  rewrite Hnames.
  destruct (@override_check_raises (map param_name others) _
              (fun in_key =>
                 ("Key '" ++ in_key ++ "' in provided ins dict does not correspond to any of the names "
                  ++ "of the arguments to the decorated function")%string)
              (param_name first) Hoverride Hdistinct) as [bad [_ [_ Hloop]]].
  rewrite Hloop. simpl. eauto.
Qed.

(** An override named [context] on a computation declaring [(context, x)]. *)
Lemma override_of_the_context_parameter_fails_witness :
  exists msg,
    build_asset_ins
      (mk_PyFunction "compute" [mk_FnParameter "context"; mk_FnParameter "x"])
      None [("context", mk_AssetIn None None None)] None
    = Raise (DagsterInvalidDefinitionError msg).
Proof.
  apply (@override_of_the_context_parameter_fails reference_collaborators
           "compute" (mk_FnParameter "context") [mk_FnParameter "x"]
           None [("context", mk_AssetIn None None None)] None).
  - reflexivity.
  - simpl. intros [e | []]. discriminate.
  - simpl. now left.
Defined.

(** * The entries that [build_asset_ins] returns *)



(** The key computed for an input name: an explicit [asset_key] of its
    override wins; otherwise the key is the namespace followed by the
    name, where the namespace is that of the override when it is not
    empty and the asset's namespace when the override has none or an
    empty one; empty segments are dropped. *)
Theorem input_key_precedence
    (asset_namespace : option (list string)) (asset_ins : dict string AssetIn)
    (input_name : string) :
  (forall override k,
      dict_get asset_ins input_name = Some override ->
      ai_asset_key override = Some k ->
      input_asset_key asset_namespace asset_ins input_name = k)
  /\ (forall override segment segments,
         dict_get asset_ins input_name = Some override ->
         ai_asset_key override = None ->
         ai_namespace override = Some (segment :: segments) ->
         input_asset_key asset_namespace asset_ins input_name
         = mk_AssetKey (filter_none (segment :: segments ++ [input_name])))
  /\ (forall override,
         dict_get asset_ins input_name = Some override ->
         ai_asset_key override = None ->
         ai_namespace override = None \/ ai_namespace override = Some [] ->
         input_asset_key asset_namespace asset_ins input_name
         = input_asset_key asset_namespace [] input_name)
  /\ (forall segments,
         ~ In "" segments -> input_name <> "" ->
         input_asset_key (Some segments) [] input_name
         = mk_AssetKey (segments ++ [input_name]))
  /\ (input_name <> "" ->
      input_asset_key None [] input_name = mk_AssetKey [input_name]).
Proof.
  unfold input_asset_key. split; [| split; [| split; [| split]]].
  - intros override k -> ->. reflexivity.
  - intros override segment segments -> -> ->. reflexivity.
  - intros override -> -> [-> | ->]; reflexivity.
  - intros segments Hclean Hname. simpl. f_equal.
    assert (Hkeep : filter_none (segments ++ [input_name]) = segments ++ [input_name]).
    { unfold filter_none. apply forallb_filter_id. apply forallb_forall.
      intros s Hs. unfold eqb_of. destruct (eq_dec s "") as [-> | _]; [| reflexivity].
      exfalso. apply in_app_or in Hs. destruct Hs as [Hs | [Hs | []]]; [tauto | congruence]. }
    destruct segments as [| s rest]; simpl seq_or; exact Hkeep.
  - intros Hname. now apply input_asset_key_plain.
Qed.

(** The override of [a] by an explicit key, by a namespace, and by nothing
    under the asset namespace [["ns"]]. *)
Lemma input_key_precedence_witness :
  input_asset_key (Some ["ns"])
    [("a", mk_AssetIn (Some (key ["A"])) None (Some ["other"]))] "a" = key ["A"]
  /\ input_asset_key (Some ["ns"])
       [("a", mk_AssetIn None None (Some ["other"]))] "a"
     = mk_AssetKey (filter_none ("other" :: [] ++ ["a"]))
  /\ input_asset_key (Some ["ns"]) [("a", mk_AssetIn None None (Some []))] "a"
     = input_asset_key (Some ["ns"]) [] "a"
  /\ input_asset_key (Some ["ns"]) [] "a" = mk_AssetKey (["ns"] ++ ["a"]).
Proof.
  pose proof (input_key_precedence (Some ["ns"])
                [("a", mk_AssetIn (Some (key ["A"])) None (Some ["other"]))] "a") as Hkey.
  pose proof (input_key_precedence (Some ["ns"])
                [("a", mk_AssetIn None None (Some ["other"]))] "a") as Hns.
  pose proof (input_key_precedence (Some ["ns"])
                [("a", mk_AssetIn None None (Some []))] "a") as Hempty.
  split; [| split; [| split]].
  - apply (proj1 Hkey (mk_AssetIn (Some (key ["A"])) None (Some ["other"]))); reflexivity.
  - apply (proj1 (proj2 Hns) (mk_AssetIn None None (Some ["other"]))); reflexivity.
  - apply (proj1 (proj2 (proj2 Hempty)) (mk_AssetIn None None (Some []))); try reflexivity.
    now right.
  - apply (proj1 (proj2 (proj2 (proj2 Hempty)))).
    + simpl. intros [e | []]. discriminate.
    + discriminate.
Defined.

(** * The entries that [build_asset_outs] returns *)

Lemma single_segment_keys_distinct (names : list string) :
  NoDup names -> NoDup (map (fun n => mk_AssetKey [n]) names).
Proof.
  apply NoDup_map_injective. intros x y _ _ [= ->]. reflexivity.
Qed.

(** Without an override table (absent or empty), [build_asset_outs] returns
    one entry per declared output, in the order of declaration, under the
    single-segment key spelled like the output, whatever [asset_key] the
    output itself carries.  With a table that is not empty and whose keys
    are pairwise distinct, the entries are those of the table, in its
    order: an output that the table leaves out has no entry, and a name of
    the table that is no declared output gets an entry without [Out], not
    an error. *)
Theorem build_asset_outs_entries
    (op_name : string) (outs : dict string Out)
    (asset_ins : dict AssetKey (string * In_)) :
  (dict_wf outs ->
   forall table,
     table = None \/ table = Some [] ->
     build_asset_outs op_name outs asset_ins table
     = map (fun item => (mk_AssetKey [fst item], (fst item, Some (snd item)))) outs)
  /\ (forall entry more,
         dict_wf (entry :: more) ->
         NoDup (map snd (entry :: more)) ->
         build_asset_outs op_name outs asset_ins (Some (entry :: more))
         = map (fun item => (snd item, (fst item, dict_get outs (fst item))))
               (entry :: more)).
Proof.
  split.
  - intros Hwf table Htable.
    assert (Hnone : build_asset_outs op_name outs asset_ins table
                    = build_asset_outs op_name outs asset_ins None)
      by (destruct Htable as [-> | ->]; reflexivity).
    rewrite Hnone. unfold build_asset_outs, dict_items.
    assert (Htable' :
              dict_of_items (map (fun out_name => (out_name, mk_AssetKey [out_name]))
                               (dict_keys outs))
              = map (fun out_name => (out_name, mk_AssetKey [out_name])) (dict_keys outs)).
    { apply dict_of_items_distinct. rewrite map_map. simpl. now rewrite map_id. }
    rewrite Htable'. rewrite dict_of_items_distinct.
    + unfold dict_keys. rewrite !map_map. simpl. apply map_ext_in.
      intros [n out] Hin. simpl. now rewrite (@dict_wf_In_get _ _ _ outs n out Hwf Hin).
    + rewrite !map_map. simpl. now apply single_segment_keys_distinct.
  - intros entry more Hwf Hkeys. unfold build_asset_outs, dict_items.
    apply dict_of_items_distinct. now rewrite map_map.
Qed.

(** Two declared outputs, the first with an explicit key of its own; and a
    table that names the undeclared output [z]. *)
Lemma build_asset_outs_entries_witness :
  build_asset_outs "op"
    [("a", mk_Out NoValueSentinel None None (Some (key ["ns"; "A"]))); ("b", plain_out)]
    [] None
  = map (fun item => (mk_AssetKey [fst item], (fst item, Some (snd item))))
      [("a", mk_Out NoValueSentinel None None (Some (key ["ns"; "A"]))); ("b", plain_out)]
  /\ build_asset_outs "op" [("a", plain_out)] []
       (Some [("z", key ["ns"; "Z"])])
     = map (fun item => (snd item, (fst item, dict_get [("a", plain_out)] (fst item))))
         [("z", key ["ns"; "Z"])].
Proof.
  split.
  - apply (proj1 (build_asset_outs_entries "op"
                    [("a", mk_Out NoValueSentinel None None (Some (key ["ns"; "A"])));
                     ("b", plain_out)] [])).
    + unfold dict_wf. simpl.
      constructor; [intros [e | []]; discriminate | constructor; [intros [] | constructor]].
    + now left.
  - apply (proj2 (build_asset_outs_entries "op" [("a", plain_out)] [])).
    + unfold dict_wf. simpl. constructor; [intros [] | constructor].
    + simpl. constructor; [intros [] | constructor].
Defined.

(** * The keys that [_infer_asset_key_by_input_name] returns *)

Lemma op_ins_keys (op_def : OpDefinition) (n : string) :
  In n (dict_keys (op_ins op_def)) <-> In n (map input_def_name (input_defs op_def)).
Proof.
  unfold op_ins. rewrite dict_of_items_map. simpl.
  rewrite (assign_all_keys_In input_def_name input_def_in). simpl. tauto.
Qed.

(** When every name of the table is an input parameter,
    [_infer_asset_key_by_input_name] returns one key for each input
    parameter and for each input that the computation declares without a
    parameter, and for no other name: the key of the table when the table
    has one for the name, and the single-segment key spelled like the name
    otherwise. *)
Theorem input_keys_are_explicit_or_synthesized `{Collaborators}
    (op_def : OpDefinition) (asset_key_by_input_name : dict string AssetKey) :
  set_iter_is_set ->
  incl (dict_keys asset_key_by_input_name)
       (_get_input_param_names (get_function_params (decorated_fn op_def))) ->
  exists inferred,
    _infer_asset_key_by_input_name op_def asset_key_by_input_name = Ok inferred
    /\ dict_wf inferred
    /\ (forall n,
           In n (dict_keys inferred)
           <-> In n (_get_input_param_names (get_function_params (decorated_fn op_def)))
               \/ In n (map input_def_name (input_defs op_def)))
    /\ (forall n,
           In n (dict_keys inferred) ->
           dict_get inferred n
           = Some (dict_get_default asset_key_by_input_name n (mk_AssetKey [n]))).
Proof.
  intros Hset Hvalid. unfold _infer_asset_key_by_input_name.
  rewrite (@override_check_passes _ _ _ Hvalid). simpl.
  set (names := _get_input_param_names (get_function_params (decorated_fn op_def))).
  set (all_input_names := set_iter (names ++ dict_keys (op_ins op_def))).
  set (value := fun input_name : string =>
                  dict_get_default asset_key_by_input_name input_name
                    (mk_AssetKey [input_name])).
  assert (Hkeys : forall n,
             In n (dict_keys
                     (dict_of_items
                        (map (fun input_name => (input_name, value input_name))
                           all_input_names)))
             <-> In n names \/ In n (map input_def_name (input_defs op_def))).
  { intros n. rewrite dict_of_items_map. simpl.
    rewrite (assign_all_keys_In (fun input_name : string => input_name) value).
    rewrite map_id. unfold all_input_names.
    rewrite (set_iter_In _ _ Hset), in_app_iff, op_ins_keys. simpl. tauto. }
  eexists. split; [reflexivity |]. split; [apply dict_of_items_wf | split; [exact Hkeys |]].
  intros n Hn. apply Hkeys in Hn.
  assert (Hin : In n all_input_names).
  { unfold all_input_names. apply (set_iter_In _ _ Hset), in_app_iff.
    rewrite op_ins_keys. exact Hn. }
  rewrite dict_of_items_map.
  apply (assign_all_get_agreed (fun input_name : string => input_name) value
           all_input_names [] n Hin).
  now intros x _ ->.
Qed.

(** A computation with the parameters [(context, a)] that also declares the
    input [start_after] without a parameter, and a table for [a]. *)
Lemma input_keys_are_explicit_or_synthesized_witness :
  exists inferred,
    _infer_asset_key_by_input_name
      (mk_OpDefinition "compute" (sample_fn ["context"; "a"])
         [mk_InputDefinition "a" plain_in;
          mk_InputDefinition "start_after" (mk_In Nothing None None None)] [])
      [("a", key ["ns"; "A"])]
    = Ok inferred
    /\ dict_wf inferred
    /\ (forall n,
           In n (dict_keys inferred)
           <-> In n (_get_input_param_names
                       (get_function_params (sample_fn ["context"; "a"])))
               \/ In n ["a"; "start_after"])
    /\ (forall n,
           In n (dict_keys inferred) ->
           dict_get inferred n
           = Some (dict_get_default [("a", key ["ns"; "A"])] n (mk_AssetKey [n]))).
Proof.
  apply (@input_keys_are_explicit_or_synthesized reference_collaborators
           (mk_OpDefinition "compute" (sample_fn ["context"; "a"])
              [mk_InputDefinition "a" plain_in;
               mk_InputDefinition "start_after" (mk_In Nothing None None None)] [])
           [("a", key ["ns"; "A"])]).
  - intros l. apply Permutation_refl.
  - intros n [<- | []]. simpl. now left.
Defined.

(** * What [__init__] stores, read back through the queries *)

Section PortNames.
Context {D : Type}.
Variables (port_name : D -> string) (defs : list D).

Let ports : dict string D := dict_of_items (map (fun d => (port_name d, d)) defs).

Let port_entry (item : AssetKey * string) : Result (AssetKey * D) :=
  d <- dict_subscript ports (snd item) ;; Ok (fst item, d).

(** The port stored under a key has the local name given for the key. *)
Lemma port_comprehension_names items res :
  dict_comprehension port_entry items [] = Ok res ->
  forall k, option_map port_name (dict_get res k) = dict_get (dict_of_items items) k.
Proof.
  unfold dict_of_items.
  assert (Hgen : forall (acc : dict AssetKey D) (acc' : dict AssetKey string),
             (forall k, option_map port_name (dict_get acc k) = dict_get acc' k) ->
             dict_comprehension port_entry items acc = Ok res ->
             forall k,
               option_map port_name (dict_get res k)
               = dict_get (fold_left (fun d kv => dict_set d (fst kv) (snd kv)) items acc') k).
  { induction items as [| item rest IH]; intros acc acc' Hsame; simpl.
    - intros [= <-]. exact Hsame.
    - destruct (port_entry item) as [kv |] eqn:Hentry; simpl; [| discriminate].
      apply IH. intros k. unfold port_entry, dict_subscript in Hentry.
      destruct (dict_get ports (snd item)) as [def |] eqn:Hget; simpl in Hentry;
        [| discriminate].
      injection Hentry as <-. simpl.
      destruct (eq_dec k (fst item)) as [-> | Hne].
      + rewrite !dict_get_set_same. simpl. f_equal.
        now apply (ports_named port_name defs).
      + rewrite !dict_get_set_other by assumption. apply Hsame. }
  apply Hgen. reflexivity.
Qed.
End PortNames.

(** A constructed definition answers for the mappings it was built from:
    its input and output keys are the keys given, and the port stored
    under a key has the local name that was given for that key. *)
Theorem constructed_ports_carry_the_given_names `{Collaborators}
    (ins outs : dict AssetKey string) (op : OpDefinition)
    (pd : option PartitionsDefinition) (pm : option (dict AssetKey PartitionMapping))
    (d : AssetsDefinition) :
  dict_wf ins -> dict_wf outs ->
  AssetsDefinition_init ins outs op pd pm = Ok d ->
  dependency_asset_keys d = dict_keys ins
  /\ asset_keys d = dict_keys outs
  /\ (forall k, option_map input_def_name (dict_get (input_defs_by_asset_key d) k)
                = dict_get ins k)
  /\ (forall k, option_map output_def_name (dict_get (output_defs_by_asset_key d) k)
                = dict_get outs k).
Proof.
  intros Hins Houts Hinit. apply init_returns in Hinit.
  destruct Hinit as [_ [_ [_ [Hi Ho]]]].
  unfold dependency_asset_keys, asset_keys, input_defs_by_asset_key,
    output_defs_by_asset_key.
  pose proof (dict_of_items_distinct ins Hins) as Ei.
  pose proof (dict_of_items_distinct outs Houts) as Eo.
  split; [| split; [| split]].
  - rewrite <- Ei. now apply (port_comprehension_keys input_def_name (input_defs op)).
  - rewrite <- Eo. now apply (port_comprehension_keys output_def_name (output_defs op)).
  - rewrite <- Ei. now apply (port_comprehension_names input_def_name (input_defs op)).
  - rewrite <- Eo. now apply (port_comprehension_names output_def_name (output_defs op)).
Qed.

(** The construction of [partitioned_definition]. *)
Lemma constructed_ports_carry_the_given_names_witness :
  dependency_asset_keys partitioned_definition = dict_keys [(key ["a"], "a")]
  /\ asset_keys partitioned_definition = dict_keys [(key ["result"], "result")]
  /\ (forall k,
         option_map input_def_name
           (dict_get (input_defs_by_asset_key partitioned_definition) k)
         = dict_get [(key ["a"], "a")] k)
  /\ (forall k,
         option_map output_def_name
           (dict_get (output_defs_by_asset_key partitioned_definition) k)
         = dict_get [(key ["result"], "result")] k).
Proof.
  apply (@constructed_ports_carry_the_given_names reference_collaborators
           [(key ["a"], "a")] [(key ["result"], "result")] (sample_op ["a"] ["result"])
           (Some "daily") (Some [(key ["a"], "identity")]) partitioned_definition).
  - unfold dict_wf. simpl. constructor; [intros [] | constructor].
  - unfold dict_wf. simpl. constructor; [intros [] | constructor].
  - reflexivity.
Defined.

(** [asset_key] returns a key exactly when the definition has that key as
    its only output key; on a definition with no output key it fails the
    same check as on one with several, with no key listed in the
    description. *)
Theorem asset_key_needs_exactly_one_output `{Collaborators} (d : AssetsDefinition) :
  (forall k, asset_key d = Ok k <-> asset_keys d = [k])
  /\ (asset_keys d = [] ->
      asset_key d
      = Raise (CheckError
                 "Tried to retrieve asset key from an assets definition with multiple asset keys: ")).
Proof.
  unfold asset_key, asset_keys, check_invariant, dict_len, dict_keys.
  destruct (_output_defs_by_asset_key d) as [| [k0 def0] [| second rest]]; simpl.
  - split; [| reflexivity]. intros k. split; discriminate.
  - split; [| discriminate]. intros k. split; intros [= ->]; reflexivity.
  - split; [| discriminate]. intros k. split; discriminate.
Qed.

(** A definition constructed with no output. *)
Lemma asset_key_needs_exactly_one_output_witness :
  asset_key (mk_AssetsDefinition (sample_op [] ["result"]) [] [] None [])
  = Raise (CheckError
             "Tried to retrieve asset key from an assets definition with multiple asset keys: ").
Proof.
  apply (proj2 (@asset_key_needs_exactly_one_output reference_collaborators
                  (mk_AssetsDefinition (sample_op [] ["result"]) [] [] None []))).
  reflexivity.
Defined.

(** The partition mapping of a constructed definition, read back: with a
    partitioning scheme, every key, input key or not, gets the mapping
    that was given for it at construction and the scheme's default when
    none was given; without a scheme, the mappings given at construction
    are accepted and every query fails. *)
Theorem partition_mappings_given_at_construction `{Collaborators}
    (ins outs : dict AssetKey string) (op : OpDefinition)
    (pd : option PartitionsDefinition) (pm : option (dict AssetKey PartitionMapping))
    (d : AssetsDefinition) (k : AssetKey) :
  AssetsDefinition_init ins outs op pd pm = Ok d ->
  get_partition_mapping d k
  = match pd with
    | None => Raise (CheckError "Asset is not partitioned")
    | Some scheme =>
        Ok (match pm with
            | Some mappings =>
                dict_get_default mappings k (get_default_partition_mapping scheme)
            | None => get_default_partition_mapping scheme
            end)
    end.
Proof.
  intros Hinit. apply init_returns in Hinit.
  destruct Hinit as [_ [Hpd [Hpm _]]].
  unfold get_partition_mapping, check_failed. rewrite Hpd, Hpm.
  destruct pd as [scheme |]; [| reflexivity].
  destruct pm as [[| entry more] |]; reflexivity.
Qed.

(** The explicit mapping of [partitioned_definition] for its input. *)
Lemma partition_mappings_given_at_construction_witness :
  get_partition_mapping partitioned_definition (key ["a"])
  = Ok (dict_get_default [(key ["a"], "identity")] (key ["a"])
          (get_default_partition_mapping "daily")).
Proof.
  apply (@partition_mappings_given_at_construction reference_collaborators
           [(key ["a"], "a")] [(key ["result"], "result")] (sample_op ["a"] ["result"])
           (Some "daily") (Some [(key ["a"], "identity")]) partitioned_definition
           (key ["a"])).
  reflexivity.
Defined.

(** * Key substitution with colliding keys, and substitutions in sequence *)

Section AssignEntries.
Context {A K V : Type} `{EqDec K}.
Variables (f : A -> K) (g : A -> V).

(** Every entry of the dict was there before or was assigned. *)
Lemma assign_all_In xs (acc : dict K V) k v :
  In (k, v) (fold_left (fun a x => dict_set a (f x) (g x)) xs acc) ->
  In (k, v) acc \/ exists x, In x xs /\ f x = k /\ g x = v.
Proof.
  revert acc. induction xs as [| x rest IH]; intros acc; simpl; [tauto |].
  intros Hin. destruct (IH _ Hin) as [Hacc | [y [Hy [Hfy Hgy]]]].
  - apply dict_set_In in Hacc. destruct Hacc as [[= -> ->] | Hacc]; [| tauto].
    right. exists x. auto.
  - right. exists y. auto.
Qed.
End AssignEntries.

Lemma dict_of_items_In {K V} `{EqDec K} (items : list (K * V)) k v :
  In (k, v) (dict_of_items items) -> In (k, v) items.
Proof.
  unfold dict_of_items. intros Hin.
  apply (assign_all_In fst snd) in Hin. destruct Hin as [[] | [[k' v'] [Hx [Hk Hv]]]].
  simpl in Hk, Hv. now subst.
Qed.

Lemma dict_of_items_keys_In {K V} `{EqDec K} (items : list (K * V)) k :
  In k (dict_keys (dict_of_items items)) <-> In k (map fst items).
Proof.
  unfold dict_of_items. rewrite (assign_all_keys_In fst snd). simpl. tauto.
Qed.

Section SubstitutionInGeneral.
Context `{Collaborators}.

Lemma with_replaced_asset_keys_constructed d o i d' :
  with_replaced_asset_keys d o i = Ok d' -> constructed d'.
Proof.
  unfold with_replaced_asset_keys, constructed. eauto 10.
Qed.

End SubstitutionInGeneral.



Section SubstitutionSteps.
Context `{Collaborators}.

(** One substitution without collisions, with what the next one needs. *)
Lemma substitution_step d o i :
  constructed d ->
  op_substitution_keeps_ports ->
  NoDup (map (substituted o) (asset_keys d)) ->
  NoDup (map (substituted i) (dependency_asset_keys d)) ->
  exists d',
    with_replaced_asset_keys d o i = Ok d'
    /\ constructed d'
    /\ asset_keys d' = map (substituted o) (asset_keys d)
    /\ dependency_asset_keys d' = map (substituted i) (dependency_asset_keys d)
    /\ (forall k def,
           dict_get (output_defs_by_asset_key d) k = Some def ->
           exists def',
             dict_get (output_defs_by_asset_key d') (substituted o k) = Some def'
             /\ output_def_name def' = output_def_name def)
    /\ (forall k def,
           dict_get (input_defs_by_asset_key d) k = Some def ->
           exists def',
             dict_get (input_defs_by_asset_key d') (substituted i k) = Some def'
             /\ input_def_name def' = input_def_name def)
    /\ op d' = op_with_replaced_asset_keys (op d) o i
    /\ partitions_def d' = partitions_def d
    /\ _partition_mappings d' = _partition_mappings d.
Proof.
  intros Hd Hports Ho Hi.
  pose proof (@with_replaced_asset_keys_returns _ d o i Hd Hports Ho Hi) as Hrun.
  eexists. split; [exact Hrun |].
  split; [exact (@with_replaced_asset_keys_constructed _ d o i _ Hrun) |].
  unfold asset_keys, dependency_asset_keys, output_defs_by_asset_key,
    input_defs_by_asset_key, op, partitions_def, dict_keys. simpl.
  rewrite !map_map. simpl.
  split; [reflexivity | split; [reflexivity |]].
  split; [| split; [| repeat split; reflexivity]].
  - intros k def Hget. eexists. split.
    + apply (substituted_entry output_def_name
               (output_defs (op_with_replaced_asset_keys (_op d) o i)) o
               (_output_defs_by_asset_key d) Ho k Hget).
    + apply (substituted_lookup_named output_def_name).
  - intros k def Hget. eexists. split.
    + apply (substituted_entry input_def_name
               (input_defs (op_with_replaced_asset_keys (_op d) o i)) i
               (_input_defs_by_asset_key d) Hi k Hget).
    + apply (substituted_lookup_named input_def_name).
Qed.
End SubstitutionSteps.

(** Two substitutions in sequence act on the keys as the composed
    substitution: when the composition sends no two keys of the definition
    to the same key, both calls succeed, the keys of the second result are
    the keys of the original under the first table and then the second,
    every key keeps its local port name through both, and the partitioning
    and the partition mappings are still those of the original. *)
Theorem substitutions_compose `{Collaborators}
    (d : AssetsDefinition) (o1 i1 o2 i2 : dict AssetKey AssetKey) :
  constructed d ->
  op_substitution_keeps_ports ->
  NoDup (map (fun k => substituted o2 (substituted o1 k)) (asset_keys d)) ->
  NoDup (map (fun k => substituted i2 (substituted i1 k)) (dependency_asset_keys d)) ->
  exists d1 d2,
    with_replaced_asset_keys d o1 i1 = Ok d1
    /\ with_replaced_asset_keys d1 o2 i2 = Ok d2
    /\ asset_keys d2 = map (fun k => substituted o2 (substituted o1 k)) (asset_keys d)
    /\ dependency_asset_keys d2
       = map (fun k => substituted i2 (substituted i1 k)) (dependency_asset_keys d)
    /\ (forall k def,
           dict_get (output_defs_by_asset_key d) k = Some def ->
           exists def2,
             dict_get (output_defs_by_asset_key d2) (substituted o2 (substituted o1 k))
             = Some def2
             /\ output_def_name def2 = output_def_name def)
    /\ (forall k def,
           dict_get (input_defs_by_asset_key d) k = Some def ->
           exists def2,
             dict_get (input_defs_by_asset_key d2) (substituted i2 (substituted i1 k))
             = Some def2
             /\ input_def_name def2 = input_def_name def)
    /\ partitions_def d2 = partitions_def d
    /\ _partition_mappings d2 = _partition_mappings d.
Proof.
  intros Hd Hports Ho Hi.
  assert (Ho1 : NoDup (map (substituted o1) (asset_keys d))).
  { apply (NoDup_map_inv (substituted o2)). now rewrite map_map. }
  assert (Hi1 : NoDup (map (substituted i1) (dependency_asset_keys d))).
  { apply (NoDup_map_inv (substituted i2)). now rewrite map_map. }
  destruct (@substitution_step _ d o1 i1 Hd Hports Ho1 Hi1)
    as [d1 [Hrun1 [Hd1 [Hk1 [Hdk1 [Hout1 [Hin1 [_ [Hpd1 Hpm1]]]]]]]]].
  assert (Ho2 : NoDup (map (substituted o2) (asset_keys d1)))
    by (now rewrite Hk1, map_map).
  assert (Hi2 : NoDup (map (substituted i2) (dependency_asset_keys d1)))
    by (now rewrite Hdk1, map_map).
  destruct (@substitution_step _ d1 o2 i2 Hd1 Hports Ho2 Hi2)
    as [d2 [Hrun2 [_ [Hk2 [Hdk2 [Hout2 [Hin2 [_ [Hpd2 Hpm2]]]]]]]]].
  exists d1, d2. split; [assumption | split; [assumption |]].
  split; [now rewrite Hk2, Hk1, map_map |].
  split; [now rewrite Hdk2, Hdk1, map_map |].
  split; [| split; [| split; congruence]].
  - intros k def Hget. destruct (Hout1 k def Hget) as [def1 [Hget1 Hname1]].
    destruct (Hout2 _ def1 Hget1) as [def2 [Hget2 Hname2]].
    exists def2. split; [assumption | congruence].
  - intros k def Hget. destruct (Hin1 k def Hget) as [def1 [Hget1 Hname1]].
    destruct (Hin2 _ def1 Hget1) as [def2 [Hget2 Hname2]].
    exists def2. split; [assumption | congruence].
Qed.

(** The input of [partitioned_definition] moved under [ns] and then under
    [top], its output moved under [ns] and then left alone. *)
Lemma substitutions_compose_witness :
  exists d1 d2,
    with_replaced_asset_keys partitioned_definition
      [(key ["result"], key ["ns"; "result"])] [(key ["a"], key ["ns"; "a"])]
    = Ok d1
    /\ with_replaced_asset_keys d1 [] [(key ["ns"; "a"], key ["top"; "ns"; "a"])] = Ok d2
    /\ asset_keys d2 = [key ["ns"; "result"]]
    /\ dependency_asset_keys d2 = [key ["top"; "ns"; "a"]].
Proof.
  destruct (@substitutions_compose reference_collaborators partitioned_definition
              [(key ["result"], key ["ns"; "result"])] [(key ["a"], key ["ns"; "a"])]
              [] [(key ["ns"; "a"], key ["top"; "ns"; "a"])]
              partitioned_definition_constructed reference_keeps_ports)
    as [d1 [d2 [Hrun1 [Hrun2 [Hout [Hin _]]]]]].
  - simpl. constructor; [intros [] | constructor].
  - simpl. constructor; [intros [] | constructor].
  - exists d1, d2. split; [exact Hrun1 | split; [exact Hrun2 | split; assumption]].
Defined.

(** * What the decorators derive from the inferred inputs *)

Lemma NoDup_keys_filter {K V} (p : K * V -> bool) (l : list (K * V)) :
  NoDup (map fst l) -> NoDup (map fst (filter p l)).
Proof.
  induction l as [| x rest IH]; simpl; [constructor |].
  intros Hnd. inversion Hnd as [| ? ? Hx Hrest]; subst.
  destruct (p x); simpl; [| now apply IH].
  constructor; [| now apply IH].
  intros Hin. apply Hx. apply in_map_iff in Hin. destruct Hin as [y [Hy Hin]].
  apply filter_In in Hin. rewrite <- Hy. apply in_map. tauto.
Qed.

(** The partition mappings that the asset decorator hands on are keyed by
    the input keys: without a table, or with an empty one, there are none;
    otherwise an input key has a mapping exactly when the table has one for
    the key's local name, and it is that one.  Nothing is raised, and a
    name of the table that is no local name of an input leaves no trace. *)
Theorem asset_partition_mappings_follow_the_inputs `{Collaborators}
    (partition_mappings : option (dict string PartitionMapping))
    (asset_ins : dict AssetKey (string * In_)) :
  dict_wf asset_ins ->
  (partition_mappings = None \/ partition_mappings = Some [] ->
   asset_partition_mappings partition_mappings asset_ins = Ok None)
  /\ (forall entry more,
         partition_mappings = Some (entry :: more) ->
         exists mappings,
           asset_partition_mappings partition_mappings asset_ins = Ok (Some mappings)
           /\ dict_wf mappings
           /\ incl (dict_keys mappings) (dict_keys asset_ins)
           /\ forall k m,
                dict_get mappings k = Some m
                <-> exists n i,
                      dict_get asset_ins k = Some (n, i)
                      /\ dict_get (entry :: more) n = Some m).
Proof.
  intros Hwf. split; [intros [-> | ->]; reflexivity |].
  intros entry more ->. unfold asset_partition_mappings, dict_items.
  set (table := entry :: more).
  set (chosen := filter (fun item : AssetKey * (string * In_) =>
                           dict_contains table (fst (snd item))) asset_ins).
  set (mapping_of := fun item : AssetKey * (string * In_) =>
                       dict_get_default table (fst (snd item)) (snd entry)).
  assert (Hchosen : forall item, In item chosen ->
             exists m, dict_get table (fst (snd item)) = Some m /\ mapping_of item = m).
  { intros item Hitem. apply filter_In in Hitem. destruct Hitem as [_ Hc].
    apply py_in_true_iff, dict_In_key in Hc. destruct Hc as [m Hm].
    exists m. split; [assumption |]. unfold mapping_of, dict_get_default. now rewrite Hm. }
  assert (Hdistinct : NoDup (map fst chosen)) by (now apply NoDup_keys_filter).
  rewrite (dict_comprehension_total fst mapping_of).
  - simpl. rewrite (assign_all_fresh fst mapping_of) by (simpl; auto). simpl.
    eexists. split; [reflexivity |].
    assert (Hkeys : dict_keys (map (fun x => (fst x, mapping_of x)) chosen) = map fst chosen)
      by (unfold dict_keys; now rewrite map_map).
    split; [unfold dict_wf; now rewrite Hkeys | split].
    + rewrite Hkeys. intros k Hk. apply in_map_iff in Hk. destruct Hk as [item [<- Hitem]].
      apply filter_In in Hitem. apply in_map. tauto.
    + intros k m. split.
      * intros Hget. apply dict_get_In, in_map_iff in Hget.
        destruct Hget as [[k' [n i]] [[= -> <-] Hitem]].
        destruct (Hchosen _ Hitem) as [m' [Hm' Hsame]]. simpl in Hm'.
        exists n, i. split; [| congruence].
        apply filter_In in Hitem. now apply dict_wf_In_get.
      * intros [n [i [Hin Hm]]]. apply dict_wf_In_get.
        -- unfold dict_wf. now rewrite Hkeys.
        -- apply dict_get_In in Hin.
           assert (Hitem : In (k, (n, i)) chosen).
           { apply filter_In. split; [assumption |]. simpl.
             apply py_in_true_iff. now apply dict_get_Some_key with (v := m). }
           assert (Hval : mapping_of (k, (n, i)) = m).
           { change (dict_get table n = Some m) in Hm.
             unfold mapping_of, dict_get_default. cbn [fst snd]. now rewrite Hm. }
           apply in_map_iff. exists (k, (n, i)). split; [| exact Hitem].
           cbn [fst]. now rewrite Hval.
  - intros item Hitem. destruct (Hchosen item Hitem) as [m [Hm Hsame]].
    unfold dict_subscript. rewrite Hm. simpl. now rewrite Hsame.
Qed.

(** Inputs [a] and [b], and a table with a mapping for [a] and one for the
    name [typo], which is no input. *)
Lemma asset_partition_mappings_follow_the_inputs_witness :
  exists mappings,
    asset_partition_mappings (Some [("a", "identity"); ("typo", "last")])
      [(key ["ns"; "a"], ("a", plain_in)); (key ["b"], ("b", plain_in))]
    = Ok (Some mappings)
    /\ dict_wf mappings
    /\ incl (dict_keys mappings) [key ["ns"; "a"]; key ["b"]]
    /\ forall k m,
         dict_get mappings k = Some m
         <-> exists n i,
               dict_get [(key ["ns"; "a"], ("a", plain_in)); (key ["b"], ("b", plain_in))] k
               = Some (n, i)
               /\ dict_get [("a", "identity"); ("typo", "last")] n = Some m.
Proof.
  assert (Hwf : dict_wf [(key ["ns"; "a"], ("a", plain_in)); (key ["b"], ("b", plain_in))]).
  { unfold dict_wf. simpl.
    constructor; [intros [e | []]; discriminate | constructor; [intros [] | constructor]]. }
  apply (proj2 (@asset_partition_mappings_follow_the_inputs reference_collaborators
                  (Some [("a", "identity"); ("typo", "last")])
                  [(key ["ns"; "a"], ("a", plain_in)); (key ["b"], ("b", plain_in))] Hwf)
           ("a", "identity") [("typo", "last")] eq_refl).
Defined.

(** The op gets one input per local name, and the keys are filed under the
    local names: inputs whose keys share a local name are merged into one,
    so that the op has as many inputs as there are keys exactly when the
    local names are pairwise distinct; in that case the inputs are handed
    on as they are, in their order. *)
Theorem op_inputs_are_merged_by_local_name
    (asset_ins : dict AssetKey (string * In_)) :
  dict_wf (op_ins_of_asset_ins asset_ins)
  /\ dict_wf (asset_key_by_input_name_of_asset_ins asset_ins)
  /\ (forall n, In n (dict_keys (op_ins_of_asset_ins asset_ins))
                <-> In n (map (fun item => fst (snd item)) asset_ins))
  /\ (forall n, In n (dict_keys (asset_key_by_input_name_of_asset_ins asset_ins))
                <-> In n (map (fun item => fst (snd item)) asset_ins))
  /\ (NoDup (map (fun item => fst (snd item)) asset_ins)
      <-> dict_len (op_ins_of_asset_ins asset_ins) = dict_len asset_ins)
  /\ (NoDup (map (fun item => fst (snd item)) asset_ins) ->
      op_ins_of_asset_ins asset_ins = dict_values asset_ins
      /\ asset_key_by_input_name_of_asset_ins asset_ins
         = map (fun item => (fst (snd item), fst item)) asset_ins).
Proof.
  unfold op_ins_of_asset_ins, asset_key_by_input_name_of_asset_ins, dict_items, dict_values.
  assert (Hkeys : forall n, In n (dict_keys (dict_of_items (map snd asset_ins)))
                            <-> In n (map (fun item => fst (snd item)) asset_ins)).
  { intros n. rewrite dict_of_items_keys_In, map_map. tauto. }
  assert (Hsame : NoDup (map (fun item : AssetKey * (string * In_) => fst (snd item)) asset_ins) ->
                  dict_of_items (map snd asset_ins) = map snd asset_ins).
  { intros Hnd. apply dict_of_items_distinct. now rewrite map_map. }
  split; [apply dict_of_items_wf | split; [apply dict_of_items_wf |]].
  split; [exact Hkeys | split; [| split]].
  - intros n. rewrite dict_of_items_keys_In, map_map. simpl. tauto.
  - split.
    + intros Hnd. rewrite (Hsame Hnd). unfold dict_len. apply length_map.
    + intros Hlen. unfold dict_len in Hlen.
      apply (NoDup_incl_NoDup (l := dict_keys (dict_of_items (map snd asset_ins)))).
      * apply dict_of_items_wf.
      * unfold dict_keys. rewrite !length_map. rewrite Hlen. apply le_n.
      * intros n Hn. now apply Hkeys.
  - intros Hnd. split; [now apply Hsame |].
    apply dict_of_items_distinct. now rewrite map_map.
Qed.

(** Two inputs with the local names [a] and [b]. *)
Lemma op_inputs_are_merged_by_local_name_witness :
  op_ins_of_asset_ins
    [(key ["ns"; "a"], ("a", plain_in)); (key ["b"], ("b", mk_In Nothing None None None))]
  = dict_values
      [(key ["ns"; "a"], ("a", plain_in)); (key ["b"], ("b", mk_In Nothing None None None))]
  /\ asset_key_by_input_name_of_asset_ins
       [(key ["ns"; "a"], ("a", plain_in)); (key ["b"], ("b", mk_In Nothing None None None))]
     = map (fun item => (fst (snd item), fst item))
         [(key ["ns"; "a"], ("a", plain_in)); (key ["b"], ("b", mk_In Nothing None None None))].
Proof.
  apply (proj2 (proj2 (proj2 (proj2 (proj2
           (op_inputs_are_merged_by_local_name
              [(key ["ns"; "a"], ("a", plain_in));
               (key ["b"], ("b", mk_In Nothing None None None))])))))).
  simpl. constructor; [intros [e | []]; discriminate | constructor; [intros [] | constructor]].
Defined.

(** [with_replaced_asset_keys] can fail on a constructed definition in one
    way only: with [KeyError] on a local name that the definition uses and
    that the computation's substituted copy no longer declares. *)
Theorem with_replaced_asset_keys_fails_only_on_a_lost_port `{Collaborators}
    (d : AssetsDefinition) (o i : dict AssetKey AssetKey) (e : Exception) :
  constructed d ->
  with_replaced_asset_keys d o i = Raise e ->
  exists n,
    e = KeyError n
    /\ (In n (map input_def_name (input_defs (op d)))
        /\ ~ In n (map input_def_name
                     (input_defs (op_with_replaced_asset_keys (op d) o i)))
        \/ In n (map output_def_name (output_defs (op d)))
           /\ ~ In n (map output_def_name
                        (output_defs (op_with_replaced_asset_keys (op d) o i)))).
Proof.
  intros Hd Hraise. unfold with_replaced_asset_keys in Hraise.
  apply init_raises in Hraise.
  destruct Hraise as [n [-> [[[k Hin] Hnot] | [[k Hin] Hnot]]]];
    exists n; (split; [reflexivity |]);
    apply dict_of_items_In, in_map_iff in Hin;
    destruct Hin as [[k0 def] [[= _ <-] Hitem]].
  - left. split; [| assumption]. now apply (constructed_input_names k0 def Hd).
  - right. split; [| assumption]. now apply (constructed_output_names k0 def Hd).
Qed.

(** A definition with the input [a] whose computation forgets its ports. *)
Lemma with_replaced_asset_keys_fails_only_on_a_lost_port_witness :
  exists n,
    KeyError "a" = KeyError n
    /\ (In n ["a"] /\ ~ In n (@nil string) \/ In n ["result"] /\ ~ In n (@nil string)).
Proof.
  apply (@with_replaced_asset_keys_fails_only_on_a_lost_port forgetful_collaborators
           (@mk_AssetsDefinition forgetful_collaborators (sample_op ["a"] ["result"])
              [(key ["a"], mk_InputDefinition "a" plain_in)]
              [(key ["result"], mk_OutputDefinition "result" plain_out)] None [])
           [] [] (KeyError "a")).
  - exists [(key ["a"], "a")], [(key ["result"], "result")], (sample_op ["a"] ["result"]),
      None, None.
    reflexivity.
  - reflexivity.
Defined.
